(** * arthur: connection bootstrap and workbench

    A shallow embedding of [arthur/connection.py] and of the parts of
    [arthur/ui.py] it drives.  Python code that mutates the workbench, the
    file system and the deferreds is written in a state-and-exception monad
    over an explicit [World]; calls into Twisted, pyOpenSSL and clarent are
    fields of a record of external capabilities. *)

From Stdlib Require Import Ascii.
From stdpp Require Import gmap strings list fin_maps.

Open Scope string_scope.

(** ** Python exceptions *)

Inductive errno := EEXIST | ENOENT | ENOTDIR | EISDIR | ENOSPC.

(** The classes of [twisted.internet.error] that derive from [ConnectError],
    and the other classes met in this code. *)
Inductive exn_class :=
| ConnectError
| ConnectionRefusedError
| NoRouteError
| TimeoutError
| SSLError
| DNSLookupError
| OSError (code : errno)
| IOError (code : errno)
| IndexError
| AlreadyCalledError
| CryptoError
| ValueError.

Record exn := mkExn { exn_class_of : exn_class; exn_repr : string }.

(** [isinstance(e, ConnectError)], the test behind [f.trap(ConnectError)]. *)
Definition isConnectError (e : exn) : bool :=
  match exn_class_of e with
  | ConnectError | ConnectionRefusedError | NoRouteError
  | TimeoutError | SSLError => true
  | _ => false
  end.

(** What a call, or a fired deferred, ends with: a value or a raised
    exception (a Twisted [Failure]). *)
Inductive outcome (A : Type) :=
| Success (a : A)
| Failure (e : exn).
Arguments Success {A} a.
Arguments Failure {A} e.

Definition oserror (code : errno) : exn := mkExn (OSError code) "OSError".
Definition ioerror (code : errno) : exn := mkExn (IOError code) "IOError".

(** ** The file system seen through [twisted.python.filepath.FilePath] *)

Module FS.

(** A path is the list of its segments, innermost first: the parent is the
    tail, the root is [[]]. *)
Abbreviation path := (list string).

Inductive node :=
| Dir
| File (content : string).

Abbreviation t := (gmap (list string) node).

Definition child (p : path) (name : string) : path := name :: p.

(** The root always exists and is a directory. *)
Definition node_at (fs : t) (p : path) : option node :=
  match p with
  | [] => Some Dir
  | _ => fs !! p
  end.

Definition exists_ (fs : t) (p : path) : bool :=
  match node_at fs p with Some _ => true | None => false end.

Definition isdir (fs : t) (p : path) : bool :=
  match node_at fs p with Some Dir => true | _ => false end.

Definition isfile (fs : t) (p : path) : bool :=
  match node_at fs p with Some (File _) => true | _ => false end.

(** [os.mkdir]: the directory must be new and its parent a directory.
    Access rights are not modelled. *)
Definition mkdir (p : path) (fs : t) : outcome unit * t :=
  if exists_ fs p then (Failure (oserror EEXIST), fs)
  else match p with
       | [] => (Failure (oserror EEXIST), fs)
       | _ :: parent =>
           match node_at fs parent with
           | None => (Failure (oserror ENOENT), fs)
           | Some (File _) => (Failure (oserror ENOTDIR), fs)
           | Some Dir => (Success tt, <[p := Dir]> fs)
           end
       end.

(** [os.makedirs], which [FilePath.makedirs] calls: make the missing
    parent first, forgiving it an [EEXIST], then the directory itself. *)
Fixpoint makedirs (p : path) (fs : t) : outcome unit * t :=
  match p with
  | [] => mkdir [] fs
  | _ :: head =>
      if negb (exists_ fs head) then
        match makedirs head fs with
        | (Failure e, fs1) =>
            match exn_class_of e with
            | OSError EEXIST => mkdir p fs1
            | _ => (Failure e, fs1)
            end
        | (Success _, fs1) => mkdir p fs1
        end
      else mkdir p fs
  end.

(** [FilePath.open()] then [read()]. *)
Definition read (fs : t) (p : path) : outcome string :=
  match node_at fs p with
  | Some (File c) => Success c
  | Some Dir => Failure (ioerror EISDIR)
  | None => Failure (ioerror ENOENT)
  end.

(** [FilePath.open("wb")]: the file is created, or emptied, at once. *)
Definition open_wb (p : path) (fs : t) : outcome unit * t :=
  match p with
  | [] => (Failure (ioerror EISDIR), fs)
  | _ :: parent =>
      match node_at fs p with
      | Some Dir => (Failure (ioerror EISDIR), fs)
      | _ =>
          match node_at fs parent with
          | Some Dir => (Success tt, <[p := File ""]> fs)
          | Some (File _) => (Failure (ioerror ENOTDIR), fs)
          | None => (Failure (ioerror ENOENT), fs)
          end
      end
  end.

(** The bytes that an open file writes out are appended to it on the disk. *)
Definition append (p : path) (data : string) (fs : t) : t :=
  match fs !! p with
  | Some (File c) => <[p := File (c +:+ data)]> fs
  | _ => fs
  end.

(** Tree shape: whatever exists lies in a directory. *)
Definition wf (fs : t) : Prop :=
  ∀ name parent, is_Some (fs !! (name :: parent)) → isdir fs parent = true.

End FS.

(** ** [_getDataPath] *)

Section DataPath.

(** The home directory that [expanduser] puts in place of the tilde. *)
Variable home : FS.path.

(** [FilePath(expanduser("~/Crypto101/"))] is the child [Crypto101] of the
    home directory; the trailing separator is dropped by [FilePath]. *)
Definition _getDataPath (_system : string) : FS.path :=
  if String.eqb _system "Windows"
  then FS.child home "Crypto101"
  else FS.child home ".crypto101".

(** Lines 56 to 58 of [_getContextFactory]: locate the data directory and
    make it when it is not a directory yet. *)
Definition locateDataPath (_system : string) (fs : FS.t)
  : outcome FS.path * FS.t :=
  let path := _getDataPath _system in
  if negb (FS.isdir fs path) then
    match FS.makedirs path fs with
    | (Success _, fs1) => (Success path, fs1)
    | (Failure e, fs1) => (Failure e, fs1)
    end
  else (Success path, fs).

End DataPath.

(** ** The workbench and the pop-ups of [arthur.ui] *)

Module UI.

(** Modelled from the spec: the Tool variants of [arthur/ui.py], which is
    not among the sources.  A pop-up carries the index of the deferred it
    fires when it is completed; a prompt also carries the text typed into
    its entry field so far. *)
Inductive Tool :=
| Splash (name text : string)
| Prompt (name promptText editText : string) (completed : nat)
| Notification (name text : string) (completed : nat)
| AppTool (name : string) (widget : nat).

Definition name (tool : Tool) : string :=
  match tool with
  | Splash n _ | Prompt n _ _ _ | Notification n _ _ | AppTool n _ => n
  end.

(** What the frame shows under the header, as the tests walk it: one
    foreground overlay for each tool, [top_w] over [bottom_w], down to the
    background. *)
Inductive Surface :=
| BACKGROUND
| Foreground (top_w : Tool) (bottom_w : Surface).

(** Modelled from the spec: [ui.Workbench].  The stack is kept top first;
    the header title and the body are fields of their own, set by the
    operations. *)
Record Workbench := mkWorkbench {
  tools : list Tool;
  title : string;
  body : Surface
}.

Definition empty : Workbench := mkWorkbench [] "" BACKGROUND.

(** Set the title to the tool's name and lay the tool over the body. *)
Definition justDisplay (tool : Tool) (wb : Workbench) : Workbench :=
  mkWorkbench (tools wb) (name tool) (Foreground tool (body wb)).

(** Plain background, empty title. *)
Definition justClear (wb : Workbench) : Workbench :=
  mkWorkbench (tools wb) "" BACKGROUND.

(** Modelled from the spec: [Workbench.display] pushes the tool, lays it
    over what was shown and names it in the header. *)
Definition display (tool : Tool) (wb : Workbench) : Workbench :=
  justDisplay tool (mkWorkbench (tool :: tools wb) (title wb) (body wb)).

(** Modelled from the spec: [Workbench.undisplay] pops the top tool,
    reverts to the plain background and the empty title, and lays the
    remaining tools again, bottom one first.  The spec does not say what
    it does on an empty stack: there is no result then. *)
Definition undisplay (wb : Workbench) : option Workbench :=
  match tools wb with
  | [] => None
  | _ :: rest =>
      Some (foldr justDisplay (justClear (mkWorkbench rest (title wb) (body wb))) rest)
  end.

(** Modelled from the spec: [Workbench.clear] removes every tool in one
    step. *)
Definition clear (wb : Workbench) : Workbench :=
  justClear (mkWorkbench [] (title wb) (body wb)).

(** The operations as data, to run sequences of them. *)
Inductive op :=
| Display (tool : Tool)
| Undisplay
| Clear.

Definition step (o : op) (wb : Workbench) : option Workbench :=
  match o with
  | Display tool => Some (display tool wb)
  | Undisplay => undisplay wb
  | Clear => Some (clear wb)
  end.

Fixpoint run (ops : list op) (wb : Workbench) : option Workbench :=
  match ops with
  | [] => Some wb
  | o :: rest =>
      match step o wb with
      | Some wb1 => run rest wb1
      | None => None
      end
  end.

(** The stack depth stays at or above zero along [ops], started at depth
    [n]: no [Undisplay] meets an empty stack. *)
Fixpoint within (ops : list op) (n : nat) : bool :=
  match ops with
  | [] => true
  | Display _ :: rest => within rest (S n)
  | Undisplay :: rest =>
      match n with
      | O => false
      | S m => within rest m
      end
  | Clear :: rest => within rest 0
  end.

(** The specification's reading of a stack: the title it asks for and the
    layers it asks for. *)
Definition expectedTitle (stack : list Tool) : string :=
  match stack with
  | [] => ""
  | top :: _ => name top
  end.

Definition layers (stack : list Tool) : Surface :=
  foldr Foreground BACKGROUND stack.

(** The title and the body are those of the stack. *)
Definition consistent (wb : Workbench) : Prop :=
  title wb = expectedTitle (tools wb) ∧ body wb = layers (tools wb).

(** A single-resolution continuation. *)
Inductive Deferred :=
| Pending
| Fired (result : option string).

End UI.

(** ** The world the code runs in *)

(** Handles of the objects the libraries hand out. *)
Inductive PKey := mkPKey (serial : nat).
Inductive X509 := mkX509 (serial : nat).
Inductive PrivateCertificate := mkPrivateCertificate (pem : string).
Inductive CertificateOptions := mkCertificateOptions (cert : PrivateCertificate).
Inductive AMP := mkAMP (peer : nat).

(** What the code asks of its surroundings, in the order it happens. *)
Inductive event :=
| Displayed (tool : UI.Tool)
| Undisplayed
| Prompted (name promptText : string)
| Notified (name text : string)
| KeyRequested
| CertificateRequested (email : string)
| ConnectRequested (host : string) (port : nat) (ctxFactory : CertificateOptions)
| DiskChanged (now : FS.t).

Record World := mkWorld {
  workbench : UI.Workbench;
  deferreds : list UI.Deferred;
  fs : FS.t;
  log : list event
}.

(** Python code: it changes the world and returns or raises; what it changed
    before raising stays changed. *)
Definition M (A : Type) : Type := World → outcome A * World.

Definition ret {A} (a : A) : M A := λ w, (Success a, w).
Definition raise {A} (e : exn) : M A := λ w, (Failure e, w).
Definition bind {A B} (m : M A) (k : A → M B) : M B :=
  λ w, match m w with
       | (Success a, w1) => k a w1
       | (Failure e, w1) => (Failure e, w1)
       end.

Declare Scope py_scope.
Delimit Scope py_scope with py.
Notation "x <- m ;; k" := (bind m (λ x, k))
  (at level 100, m at next level, right associativity) : py_scope.
Notation "m ;; k" := (bind m (λ _, k))
  (at level 100, right associativity) : py_scope.
Open Scope py_scope.

(** The call of a library function that only returns or raises. *)
Definition call {A} (o : outcome A) : M A := λ w, (o, w).

Definition emit (e : event) : M unit :=
  λ w, (Success tt, mkWorld (workbench w) (deferreds w) (fs w) (log w ++ [e])).

Definition onFS {A} (f : FS.t → outcome A * FS.t) : M A :=
  λ w, let '(r, fs1) := f (fs w) in
       (r, mkWorld (workbench w) (deferreds w) fs1 (log w)).

(** An operation that opens or closes a file: the state it leaves the disk
    in is recorded, as what a reader of the disk can see from then on. *)
Definition onFile {A} (f : FS.t → outcome A * FS.t) : M A :=
  λ w, let '(r, fs1) := f (fs w) in
       (r, mkWorld (workbench w) (deferreds w) fs1 (log w ++ [DiskChanged fs1])).

(** *** Deferreds: [addCallback], [addErrback], [addBoth]

    A deferred that has fired with [o] is [call o]; the callbacks added to
    it run in the order they were added, each on what the one before
    returned or raised. *)

Definition addCallback {A B} (d : M A) (f : A → M B) : M B := bind d f.

Definition addBoth {A B} (d : M A) (f : outcome A → M B) : M B :=
  λ w, let '(o, w1) := d w in f o w1.

Definition addErrback {A} (d : M A) (f : exn → M A) : M A :=
  λ w, match d w with
       | (Success a, w1) => (Success a, w1)
       | (Failure e, w1) => f e w1
       end.

(** A callback that returns what it was given: a value as it is, a failure
    as the failure it is. *)
Definition passThrough {A} (returnValue : outcome A) : M A := call returnValue.

(** [Failure.trap]: go on when the failure is of the class, raise it again
    otherwise. *)
Definition trap (isClass : exn → bool) (f : exn) : M unit :=
  if isClass f then ret tt else raise f.

(** *** The workbench and the pop-ups, in the world *)

Definition display (tool : UI.Tool) : M unit :=
  λ w, emit (Displayed tool)
         (mkWorld (UI.display tool (workbench w)) (deferreds w) (fs w) (log w)).

(** On an empty stack the pop raises, as popping an empty list does. *)
Definition undisplay : M unit :=
  λ w, match UI.undisplay (workbench w) with
       | Some wb => emit Undisplayed (mkWorld wb (deferreds w) (fs w) (log w))
       | None => (Failure (mkExn IndexError "IndexError('pop from empty list',)"), w)
       end.

(** A new pending deferred; its index is returned. *)
Definition newDeferred : M nat :=
  λ w, (Success (length (deferreds w)),
        mkWorld (workbench w) (deferreds w ++ [UI.Pending]) (fs w) (log w)).

(** [Deferred.callback]: fire a pending deferred; a second firing raises. *)
Definition callback (d : nat) (result : option string) : M unit :=
  λ w, match deferreds w !! d with
       | Some UI.Pending =>
           (Success tt,
            mkWorld (workbench w) (<[d := UI.Fired result]> (deferreds w)) (fs w) (log w))
       | _ => (Failure (mkExn AlreadyCalledError "AlreadyCalledError()"), w)
       end.

(** Modelled from the spec: [ui.prompt] displays a prompt with an empty entry
    field and returns the deferred that its confirmation fires. *)
Definition prompt (name promptText : string) : M nat :=
  d <- newDeferred ;;
  emit (Prompted name promptText) ;;
  display (UI.Prompt name promptText "" d) ;;
  ret d.

(** Modelled from the spec: [ui.notify] displays a notification and returns
    the deferred that its dismissal fires. *)
Definition notify (name text : string) : M nat :=
  d <- newDeferred ;;
  emit (Notified name text) ;;
  display (UI.Notification name text d) ;;
  ret d.

(** Modelled from the spec: [ui.alert], the notification of an error. *)
Definition alert (name text : string) : M nat := notify name text.

(** Modelled from the spec: typing into the entry field of the prompt on top
    of the stack ([Edit.insert_text] with the cursor at the end). *)
Definition insert_text (text : string) : M unit :=
  λ w, match UI.tools (workbench w) with
       | UI.Prompt n p e d :: rest =>
           (Success tt,
            mkWorld (UI.mkWorkbench (UI.Prompt n p (e +:+ text) d :: rest)
                       (UI.title (workbench w)) (UI.body (workbench w)))
                    (deferreds w) (fs w) (log w))
       | _ => (Success tt, w)
       end.

(** Modelled from the spec: the button of the pop-up on top of the stack is
    clicked.  The pop-up's deferred is fired, with the entered text for a
    prompt and with no value for a notification, and the pop-up pops itself;
    what waits on the deferred goes on from there.  The deferred and its
    result are returned; a click on anything else does nothing. *)
Definition click : M (option (nat * option string)) :=
  λ w, match UI.tools (workbench w) with
       | UI.Prompt _ _ e d :: _ =>
           (callback d (Some e) ;; undisplay ;; ret (Some (d, Some e))) w
       | UI.Notification _ _ d :: _ =>
           (callback d None ;; undisplay ;; ret (Some (d, None))) w
       | _ => (Success None, w)
       end.

(** ** [arthur/connection.py] *)

(** What [clarent], pyOpenSSL, Twisted and the operating system answer.  A
    library call returns or raises; [close_error] tells whether closing a
    file with the given bytes in its buffer raises, and then how many of
    these bytes have reached the disk. *)
Record Externals := mkExternals {
  home : FS.path;
  thisSystem : string;
  generateKey : outcome PKey;
  makeCertificate : PKey → string → outcome X509;
  dump_privatekey : PKey → outcome string;
  dump_certificate : X509 → outcome string;
  close_error : string → option (exn * nat);
  loadPEM : string → outcome PrivateCertificate
}.

(** Where an [inlineCallbacks] generator stands: waiting at its [yield] for
    the deferred [d], or returned. *)
Inductive generator (A : Type) :=
| Yielded (d : nat) (path : FS.path)
| Returned (a : A).
Arguments Yielded {A} d path.
Arguments Returned {A} a.

(** Where [connect] stands when it hands back its deferred. *)
Inductive connecting :=
| AwaitingEmail (d : nat) (path : FS.path)
| AwaitingConnection.

Definition outcome_map {A B} (f : A → B) (o : outcome A) : outcome B :=
  match o with
  | Success a => Success (f a)
  | Failure e => Failure e
  end.

Definition connectingSplash : UI.Tool := UI.Splash "Connecting" "Connecting...".

Definition credentialSplash : UI.Tool :=
  UI.Splash "SSL credential generation"
            "Generating SSL credentials. (This can take a while.)".

(** The text of the alert, for the value of the failure. *)
Definition failureText (value : exn) : string :=
  "Connection failed! Check internet connection, or try again later. "
  +:+ String "010"%char "Error: " +:+ exn_repr value.

(** *** The open file

    A Python file object is buffered: what is written to it stays in its
    buffer and reaches the disk when the buffer is written out, which is
    when the file is closed.  The body of a [with] block on an open file,
    which writes to the file and calls libraries, runs on that buffer; it
    returns or raises, and what it had written until then stays in the
    buffer.  The written bytes are taken to fit the buffer. *)
Definition Buffered (A : Type) : Type := string → outcome A * string.

Definition buffered_ret {A} (a : A) : Buffered A := λ buffer, (Success a, buffer).

Definition buffered_bind {A B} (m : Buffered A) (k : A → Buffered B) : Buffered B :=
  λ buffer, match m buffer with
            | (Success a, buffer1) => k a buffer1
            | (Failure e, buffer1) => (Failure e, buffer1)
            end.

Declare Scope file_scope.
Delimit Scope file_scope with file.
Notation "x <- m ;; k" := (buffered_bind m (λ x, k))
  (at level 100, m at next level, right associativity) : file_scope.
Notation "m ;; k" := (buffered_bind m (λ _, k))
  (at level 100, right associativity) : file_scope.

(** The call of a library function, with a file open. *)
Definition buffered_call {A} (o : outcome A) : Buffered A := λ buffer, (o, buffer).

(** [pemFile.write(data)]: the bytes go to the end of the buffer. *)
Definition write (data : string) : Buffered unit :=
  λ buffer, (Success tt, buffer +:+ data).

Section Connection.

Variable X : Externals.

(** [pemFile.close()], on the file open at [p] with [buffer] to write out:
    the buffer reaches the disk; when the operating system refuses, the
    close raises and only the first bytes of the buffer have reached the
    disk. *)
Definition close (p : FS.path) (buffer : string) : M unit :=
  match close_error X buffer with
  | None => onFile (λ fs0, (Success tt, FS.append p buffer fs0))
  | Some (e, n) =>
      onFile (λ fs0, (Failure e, FS.append p (String.substring 0 n buffer) fs0))
  end.

(** [with FilePath.open("wb") as pemFile: body].  The file is created or
    emptied, the body runs, and the file is closed whether the body returns
    or raises; an error of the close takes the place of that of the body. *)
Definition with_open_wb (p : FS.path) (body : Buffered unit) : M unit :=
  onFile (FS.open_wb p) ;;
  (let '(returned, buffer) := body "" in
   close p buffer ;;
   call returned).

(** [_makeCredentials]. *)
Definition _makeCredentials (path : FS.path) (email : string) : M unit :=
  display credentialSplash ;;
  key <- (emit KeyRequested ;; call (generateKey X)) ;;
  cert <- (emit (CertificateRequested email) ;; call (makeCertificate X key email)) ;;
  with_open_wb (FS.child path "client.pem")
    (keyPEM <- buffered_call (dump_privatekey X key) ;;
     write keyPEM ;;
     certPEM <- buffered_call (dump_certificate X cert) ;;
     write certPEM)%file ;;
  undisplay.

(** Lines 65 to 68 of [_getContextFactory]: read the file and build the
    context factory from what was read. *)
Definition loadContextFactory (pemPath : FS.path) : M CertificateOptions :=
  pem <- (λ w, (FS.read (fs w) pemPath, w)) ;;
  cert <- call (loadPEM X pem) ;;
  ret (mkCertificateOptions cert).

(** [_getContextFactory], up to its [yield] or, when there is none, to its
    return. *)
Definition _getContextFactory : M (generator CertificateOptions) :=
  path <- onFS (locateDataPath (home X) (thisSystem X)) ;;
  let pemPath := FS.child path "client.pem" in
  λ w, if negb (FS.isfile (fs w) pemPath)
       then (d <- prompt "E-mail entry" "Enter e-mail:" ;; ret (Yielded d path)) w
       else (ctx <- loadContextFactory pemPath ;; ret (Returned ctx)) w.

(** [_getContextFactory] from its [yield] on, once the prompt's deferred
    has fired with [email]. *)
Definition _getContextFactory_send (path : FS.path) (email : string)
  : M CertificateOptions :=
  _makeCredentials path email ;;
  loadContextFactory (FS.child path "client.pem").

(** [_connectWithContextFactory], up to the return of the endpoint's
    pending deferred. *)
Definition _connectWithContextFactory (ctxFactory : CertificateOptions) : M unit :=
  display connectingSplash ;;
  emit (ConnectRequested "localhost" 4430 ctxFactory).

Definition closeSplash (returnValue : outcome (option AMP)) : M (option AMP) :=
  undisplay ;;
  passThrough returnValue.

(** The errback ends without a [return]: it returns [None]; the deferred
    of [alert] is dropped. *)
Definition notifyFailure (f : exn) : M (option AMP) :=
  trap isConnectError f ;;
  _ <- alert "Couldn't connect" (failureText f) ;;
  ret None.

(** The endpoint's deferred fires with [o]: the two callbacks that
    [_connectWithContextFactory] added run. *)
Definition connectionFired (o : outcome AMP) : M (option AMP) :=
  addErrback (addBoth (call (outcome_map Some o)) closeSplash) notifyFailure.

(** [connect], up to the return of its deferred. *)
Definition connect : M connecting :=
  g <- _getContextFactory ;;
  match g with
  | Yielded d path => ret (AwaitingEmail d path)
  | Returned ctxFactory =>
      addCallback (ret ctxFactory) _connectWithContextFactory ;;
      ret AwaitingConnection
  end.

(** [connect] goes on when the prompt's deferred fires with [email]. *)
Definition connect_send (path : FS.path) (email : string) : M connecting :=
  addCallback (_getContextFactory_send path email) _connectWithContextFactory ;;
  ret AwaitingConnection.

(** One call of the context-factory step with a user who, when asked,
    types [email] and confirms. *)
Definition ensureIdentity (email : string) : M CertificateOptions :=
  g <- _getContextFactory ;;
  match g with
  | Returned ctxFactory => ret ctxFactory
  | Yielded d path =>
      insert_text email ;;
      fired <- click ;;
      match fired with
      | Some (_, Some entered) => _getContextFactory_send path entered
      | _ => raise (mkExn ValueError "no prompt to confirm")
      end
  end.

End Connection.

(** The events of a log that are requests for an e-mail address, and those
    that are key or certificate generations. *)
Definition isPrompted (e : event) : bool :=
  match e with Prompted _ _ => true | _ => false end.

Definition isKeyRequested (e : event) : bool :=
  match e with KeyRequested => true | _ => false end.

Definition isNotified (e : event) : bool :=
  match e with Notified _ _ => true | _ => false end.

Definition isUndisplayed (e : event) : bool :=
  match e with Undisplayed => true | _ => false end.

Definition count (p : event → bool) (l : list event) : nat :=
  length (List.filter p l).

(** [part] occurs in [text]. *)
Definition contains (text part : string) : Prop :=
  ∃ before after, text = before +:+ part +:+ after.

(** What a reader of [p] finds in each recorded state of the disk. *)
Definition seenAt (p : FS.path) (l : list event) : list (option FS.node) :=
  omap (λ e, match e with
             | DiskChanged now => Some (FS.node_at now p)
             | _ => None
             end) l.

(** The context factory that the contents of the disk stand for. *)
Definition contextOnDisk (X : Externals) (disk : FS.t) (pemPath : FS.path)
  : outcome CertificateOptions :=
  match FS.read disk pemPath with
  | Success pem => outcome_map mkCertificateOptions (loadPEM X pem)
  | Failure e => Failure e
  end.

(** The computation leaves what is at [q] on the disk as it is, whether it
    returns or raises. *)
Definition keepsNode (q : FS.path) {A} (m : M A) : Prop :=
  ∀ w, FS.node_at (fs (m w).2) q = FS.node_at (fs w) q.

(** The world after the data directory was located. *)
Definition located (w : World) (disk : FS.t) : World :=
  mkWorld (workbench w) (deferreds w) disk (log w).

(** The world in which the generator resumes: the prompt was displayed,
    filled in, confirmed and popped. *)
Definition answered (w : World) (disk : FS.t) (email : string) : World :=
  mkWorld (UI.mkWorkbench (UI.tools (workbench w))
                          (UI.expectedTitle (UI.tools (workbench w)))
                          (UI.layers (UI.tools (workbench w))))
          (deferreds w ++ [UI.Fired (Some email)]) disk
          (log w ++ [Prompted "E-mail entry" "Enter e-mail:";
                     Displayed (UI.Prompt "E-mail entry" "Enter e-mail:" ""
                                  (length (deferreds w)));
                     Undisplayed]).

(** *** Sample surroundings *)

Module Sample.

Definition dataPath : FS.path := [".crypto101"; "alice"; "home"].
Definition pemPath : FS.path := FS.child dataPath "client.pem".

(** A disk with the data directory and no identity file. *)
Definition disk : FS.t :=
  <[dataPath := FS.Dir]> (<[["alice"; "home"] := FS.Dir]> (<[["home"] := FS.Dir]> ∅)).

Definition world : World := mkWorld UI.empty [] disk [].

(** The same with an identity file. *)
Definition provisioned : World :=
  mkWorld UI.empty [] (<[pemPath := FS.File "KEY.CERT."]> disk) [].

Definition sound : Externals :=
  {| home := ["alice"; "home"];
     thisSystem := "Linux";
     generateKey := Success (mkPKey 1);
     makeCertificate := λ _ _, Success (mkX509 1);
     dump_privatekey := λ _, Success "KEY.";
     dump_certificate := λ _, Success "CERT.";
     close_error := λ _, None;
     loadPEM := λ pem, Success (mkPrivateCertificate pem) |}.

Definition noSpaceLeft : exn := mkExn (IOError ENOSPC) "IOError(28, 'No space left on device')".

(** The disk fills up while the file is written out at its close: six bytes
    get through. *)
Definition diskFull : Externals :=
  {| home := home sound;
     thisSystem := thisSystem sound;
     generateKey := generateKey sound;
     makeCertificate := makeCertificate sound;
     dump_privatekey := dump_privatekey sound;
     dump_certificate := dump_certificate sound;
     close_error := λ _, Some (noSpaceLeft, 6);
     loadPEM := loadPEM sound |}.

Definition keyFailure : exn := mkExn CryptoError "Error([('rsa routines', 'key generation')],)".

(** Key generation raises. *)
Definition noKey : Externals :=
  {| home := home sound;
     thisSystem := thisSystem sound;
     generateKey := Failure keyFailure;
     makeCertificate := makeCertificate sound;
     dump_privatekey := dump_privatekey sound;
     dump_certificate := dump_certificate sound;
     close_error := close_error sound;
     loadPEM := loadPEM sound |}.

Definition refused : exn :=
  mkExn ConnectionRefusedError "ConnectionRefusedError('Connection refused',)".

Definition ctxFactory : CertificateOptions :=
  mkCertificateOptions (mkPrivateCertificate "KEY.CERT.").

End Sample.

Definition isConnectRequested (e : event) : bool :=
  match e with ConnectRequested _ _ _ => true | _ => false end.

(** *** Further sample surroundings *)

Module Edge.

Definition noStartLine : exn :=
  mkExn CryptoError "Error([('PEM routines', 'PEM_read_bio', 'no start line')],)".

(** Whatever is in the file, it does not load. *)
Definition unreadable : Externals :=
  {| home := home Sample.sound;
     thisSystem := thisSystem Sample.sound;
     generateKey := generateKey Sample.sound;
     makeCertificate := makeCertificate Sample.sound;
     dump_privatekey := dump_privatekey Sample.sound;
     dump_certificate := dump_certificate Sample.sound;
     close_error := close_error Sample.sound;
     loadPEM := λ _, Failure noStartLine |}.

(** A disk on which [client.pem] is a directory. *)
Definition pemIsDirectory : World :=
  mkWorld UI.empty [] (<[Sample.pemPath := FS.Dir]> Sample.disk) [].

End Edge.

(** * Properties *)

(** ** The data directory *)

Module FSFacts.
Import FS.

Lemma node_at_insert_ne (fs : FS.t) (p q : path) (n : node) :
  p ≠ q → node_at (<[p := n]> fs) q = node_at fs q.
Proof.
  intros Hne. destruct q as [|c q]; [reflexivity|].
  cbn. by rewrite lookup_insert_ne.
Qed.

Lemma node_at_insert_eq (fs : FS.t) (c : string) (p : path) (n : node) :
  node_at (<[c :: p := n]> fs) (c :: p) = Some n.
Proof. cbn. by rewrite lookup_insert_eq. Qed.

Lemma suffix_cons_case (q p : path) (c : string) :
  q `suffix_of` c :: p → q = c :: p ∨ q `suffix_of` p.
Proof.
  intros [k Hk]. destruct k as [|a k]; cbn in Hk.
  - by left.
  - right. injection Hk as _ ->. by exists k.
Qed.

Lemma wf_empty : wf ∅.
Proof. intros c p [n Hn]. by rewrite lookup_empty in Hn. Qed.

(** In a tree, everything above an existing node is a directory. *)
Lemma wf_ancestors (fs : FS.t) (p q : path) :
  wf fs → exists_ fs p = true → q `suffix_of` p → q ≠ p → isdir fs q = true.
Proof.
  intros Hwf. induction p as [|c p IH]; intros Hex Hsuf Hne.
  - apply suffix_nil_inv in Hsuf. congruence.
  - apply suffix_cons_case in Hsuf as [->|Hsuf]; [congruence|].
    assert (Hp : isdir fs p = true).
    { apply (Hwf c p). unfold exists_, node_at in Hex.
      destruct (fs !! (c :: p)); [eauto | discriminate]. }
    destruct (decide (q = p)) as [->|Hqp]; [exact Hp|].
    apply IH; [|exact Hsuf|exact Hqp].
    unfold isdir in Hp. unfold exists_. by destruct (node_at fs p).
Qed.

(** A new node under a directory keeps the tree. *)
Lemma wf_insert (fs : FS.t) (c : string) (head : path) (n : node) :
  wf fs → exists_ fs (c :: head) = false → isdir fs head = true →
  wf (<[c :: head := n]> fs).
Proof.
  intros Hwf Hex Hdir c' p' Hsome.
  destruct (decide (c' :: p' = c :: head)) as [Heq|Hne].
  - injection Heq as -> ->. unfold isdir.
    rewrite node_at_insert_ne; [exact Hdir|].
    intros Hbad. apply (f_equal length) in Hbad. cbn in Hbad. lia.
  - rewrite lookup_insert_ne in Hsome by congruence.
    pose proof (Hwf _ _ Hsome) as Hp'.
    unfold isdir. rewrite node_at_insert_ne; [exact Hp'|].
    intros <-. unfold isdir, exists_ in *.
    destruct (node_at fs (c :: head)); discriminate.
Qed.

(** A new directory under a directory: [mkdir] makes it and keeps the
    tree and everything else. *)
Lemma mkdir_new (fs : FS.t) (c : string) (head : path) :
  wf fs → exists_ fs (c :: head) = false → isdir fs head = true →
  mkdir (c :: head) fs = (Success tt, <[c :: head := Dir]> fs)
  ∧ wf (<[c :: head := Dir]> fs)
  ∧ isdir (<[c :: head := Dir]> fs) (c :: head) = true
  ∧ ∀ q, q ≠ c :: head → node_at (<[c :: head := Dir]> fs) q = node_at fs q.
Proof.
  intros Hwf Hex Hdir.
  split; [|split; [by apply wf_insert|split]].
  - unfold mkdir. rewrite Hex. unfold isdir in Hdir.
    destruct (node_at fs head) as [[|]|]; done.
  - unfold isdir. by rewrite node_at_insert_eq.
  - intros q Hq. apply node_at_insert_ne. congruence.
Qed.

(** [makedirs] on a path that does not exist, with no regular file on the
    way: the path and all that is above it are directories afterwards, and
    what existed is kept. *)
Lemma makedirs_new (p : path) : ∀ fs : FS.t,
  wf fs → (∀ q, q `suffix_of` p → isfile fs q = false) → exists_ fs p = false →
  ∃ fs', makedirs p fs = (Success tt, fs')
         ∧ wf fs'
         ∧ (∀ q, q `suffix_of` p → isdir fs' q = true)
         ∧ (∀ q, ¬ q `suffix_of` p → node_at fs' q = node_at fs q)
         ∧ (∀ q, exists_ fs q = true → node_at fs' q = node_at fs q).
Proof.
  induction p as [|c head IH]; intros fs Hwf Hfiles Hex; [discriminate|].
  assert (Hlen : ∀ q, q `suffix_of` head → q ≠ c :: head).
  { intros q Hq ->. apply suffix_length in Hq. cbn in Hq. lia. }
  cbn [makedirs]. destruct (exists_ fs head) eqn:Hhead; cbn [negb].
  - assert (Hdir : isdir fs head = true).
    { specialize (Hfiles head (suffix_cons_r _ _ _ (reflexivity _))).
      unfold exists_, isdir, isfile in *.
      destruct (node_at fs head) as [[|]|]; done. }
    destruct (mkdir_new fs c head Hwf Hex Hdir) as (Hmk & Hwf' & Hp & Hframe).
    eexists; split; [exact Hmk|]. repeat split; [exact Hwf'| | |].
    + intros q Hq. apply suffix_cons_case in Hq as [->|Hq]; [exact Hp|].
      unfold isdir. rewrite Hframe by auto.
      destruct (decide (q = head)) as [->|Hne]; [exact Hdir|].
      by apply (wf_ancestors fs head q).
    + intros q Hq. apply Hframe. intros ->. by apply Hq.
    + intros q Hq. apply Hframe. intros ->. congruence.
  - destruct (IH fs Hwf) as (fs1 & Hmk1 & Hwf1 & Hdirs1 & Hout1 & Hkeep1);
      [intros q Hq; apply Hfiles; by apply suffix_cons_r | exact Hhead |].
    rewrite Hmk1.
    assert (Hex1 : exists_ fs1 (c :: head) = false).
    { unfold exists_. rewrite Hout1; [exact Hex|].
      intros Hq. by apply (Hlen _ Hq). }
    destruct (mkdir_new fs1 c head Hwf1 Hex1 (Hdirs1 head (reflexivity _)))
      as (Hmk & Hwf' & Hp & Hframe).
    eexists; split; [exact Hmk|]. repeat split; [exact Hwf'| | |].
    + intros q Hq. apply suffix_cons_case in Hq as [->|Hq]; [exact Hp|].
      unfold isdir. rewrite Hframe by auto. by apply Hdirs1.
    + intros q Hq. rewrite Hframe by (intros ->; by apply Hq).
      apply Hout1. intros Hq'. apply Hq. by apply suffix_cons_r.
    + intros q Hq. rewrite Hframe by (intros ->; congruence).
      by apply Hkeep1.
Qed.

(** Whenever [mkdir] or [makedirs] returns, the path is a directory. *)
Lemma mkdir_Success (p : path) (fs fs' : FS.t) :
  mkdir p fs = (Success tt, fs') → isdir fs' p = true.
Proof.
  unfold mkdir. destruct (exists_ fs p); [done|].
  destruct p as [|c parent]; [done|].
  destruct (node_at fs parent) as [[|]|]; try done.
  intros [= <-]. unfold isdir. by rewrite node_at_insert_eq.
Qed.

Lemma makedirs_Success (p : path) (fs fs' : FS.t) :
  makedirs p fs = (Success tt, fs') → isdir fs' p = true.
Proof.
  destruct p as [|c head]; cbn [makedirs]; [apply mkdir_Success|].
  destruct (negb (exists_ fs head)); [|apply mkdir_Success].
  destruct (makedirs head fs) as [[[]|e] fs1]; [apply mkdir_Success|].
  destruct (exn_class_of e) as [| | | | | |[]| | | | |]; try done; apply mkdir_Success.
Qed.

(** [mkdir] and [makedirs] touch nothing but the path and what is above
    it, whether they return or raise. *)
Lemma mkdir_keeps (p q : path) (fs : FS.t) :
  q ≠ p → node_at (mkdir p fs).2 q = node_at fs q.
Proof.
  intros Hne. unfold mkdir. destruct (exists_ fs p); [done|].
  destruct p as [|c parent]; [done|].
  destruct (node_at fs parent) as [[|]|]; try done.
  cbn [snd]. by apply node_at_insert_ne.
Qed.

Lemma makedirs_keeps (p q : path) : ∀ fs : FS.t,
  ¬ q `suffix_of` p → node_at (makedirs p fs).2 q = node_at fs q.
Proof.
  induction p as [|c head IH]; intros fs Hq.
  - apply mkdir_keeps. intros ->. by apply Hq.
  - assert (Hne : q ≠ c :: head) by (intros ->; by apply Hq).
    assert (Hhead : ¬ q `suffix_of` head)
      by (intros H; apply Hq; by apply suffix_cons_r).
    cbn [makedirs]. destruct (negb (exists_ fs head)); [|by apply mkdir_keeps].
    specialize (IH fs Hhead).
    destruct (makedirs head fs) as [[[]|e] fs1]; cbn [snd] in IH.
    + by rewrite mkdir_keeps.
    + destruct (exn_class_of e) as [| | | | | |[]| | | | |]; cbn [snd]; try done.
      by rewrite mkdir_keeps.
Qed.

End FSFacts.

(** C6: the data directory is the child of the home directory named
    [Crypto101] when the system is "Windows" and [.crypto101] for every other
    system, two different names; when it is a directory already, locating it
    succeeds and leaves the file system as it is; when neither it nor
    anything above it is a regular file, in a tree-shaped file system,
    locating it succeeds, the directory and everything above it are
    directories afterwards, and whatever existed is kept. *)
Theorem locateDataPath_creates (home : FS.path) (_system : string) (fs : FS.t) :
  (_system = "Windows" → _getDataPath home _system = FS.child home "Crypto101")
  ∧ (_system ≠ "Windows" → _getDataPath home _system = FS.child home ".crypto101")
  ∧ FS.child home "Crypto101" ≠ FS.child home ".crypto101"
  ∧ (FS.isdir fs (_getDataPath home _system) = true →
     locateDataPath home _system fs = (Success (_getDataPath home _system), fs))
  ∧ (FS.wf fs →
     (∀ q, q `suffix_of` _getDataPath home _system → FS.isfile fs q = false) →
     ∃ fs', locateDataPath home _system fs = (Success (_getDataPath home _system), fs')
            ∧ FS.wf fs'
            ∧ (∀ q, q `suffix_of` _getDataPath home _system → FS.isdir fs' q = true)
            ∧ (∀ q, FS.exists_ fs q = true → FS.node_at fs' q = FS.node_at fs q)).
Proof.
  split; [|split; [|split; [|split]]].
  - intros ->. reflexivity.
  - intros Hne. unfold _getDataPath.
    destruct (String.eqb_spec _system "Windows"); [contradiction | reflexivity].
  - unfold FS.child. intros Heq. discriminate Heq.
  - intros Hdir. unfold locateDataPath. by rewrite Hdir.
  - intros Hwf Hfiles. unfold locateDataPath.
    destruct (FS.isdir fs (_getDataPath home _system)) eqn:Hdir; cbn [negb].
    + exists fs. split; [reflexivity|]. split; [exact Hwf|]. split; [|done].
      intros q Hq. destruct (decide (q = _getDataPath home _system)) as [->|Hne];
        [exact Hdir|].
      apply (FSFacts.wf_ancestors fs (_getDataPath home _system)); try done.
      unfold FS.isdir in Hdir. unfold FS.exists_.
      by destruct (FS.node_at fs (_getDataPath home _system)).
    + assert (Hex : FS.exists_ fs (_getDataPath home _system) = false).
      { specialize (Hfiles _ (reflexivity _)).
        unfold FS.exists_, FS.isdir, FS.isfile in *.
        by destruct (FS.node_at fs (_getDataPath home _system)) as [[|]|]. }
      destruct (FSFacts.makedirs_new _ fs Hwf Hfiles Hex)
        as (fs' & Hmk & Hwf' & Hdirs & _ & Hkeep).
      exists fs'. by rewrite Hmk.
Qed.

(** On an empty disk, under [/home/alice] on Linux, the directory and its
    two parents are made. *)
Lemma locateDataPath_creates_witness :
  ∃ fs', locateDataPath ["alice"; "home"] "Linux" ∅
         = (Success [".crypto101"; "alice"; "home"], fs')
         ∧ FS.wf fs'
         ∧ (∀ q, q `suffix_of` [".crypto101"; "alice"; "home"] → FS.isdir fs' q = true)
         ∧ (∀ q, FS.exists_ (∅ : FS.t) q = true → FS.node_at fs' q = FS.node_at ∅ q).
Proof.
  destruct (locateDataPath_creates ["alice"; "home"] "Linux" ∅) as (_ & _ & _ & _ & H).
  apply H.
  - exact FSFacts.wf_empty.
  - intros q _. unfold FS.isfile, FS.node_at.
    destruct q; [reflexivity | by rewrite lookup_empty].
Defined.

(** ** The workbench *)

Module UIFacts.
Import UI.

(** Laying a stack again over the plain background gives the title and
    the layers the specification asks for. *)
Lemma redisplay (stack rest : list Tool) (t0 : string) (b0 : Surface) :
  foldr justDisplay (justClear (mkWorkbench stack t0 b0)) rest
  = mkWorkbench stack (expectedTitle rest) (layers rest).
Proof.
  induction rest as [|tool rest IH]; [reflexivity|].
  cbn [foldr]. rewrite IH. reflexivity.
Qed.

Lemma undisplay_cons (tool : Tool) (rest : list Tool) (t0 : string) (b0 : Surface) :
  undisplay (mkWorkbench (tool :: rest) t0 b0)
  = Some (mkWorkbench rest (expectedTitle rest) (layers rest)).
Proof. unfold undisplay. cbn [tools]. by rewrite redisplay. Qed.

Lemma step_consistent (o : op) (wb wb1 : Workbench) :
  consistent wb → step o wb = Some wb1 → consistent wb1.
Proof.
  intros [Ht Hb] Hstep. destruct o as [tool| |]; cbn in Hstep.
  - injection Hstep as <-. split; cbn; [reflexivity | by rewrite Hb].
  - destruct wb as [[|top rest] t0 b0]; [discriminate|].
    rewrite undisplay_cons in Hstep. injection Hstep as <-. by split.
  - injection Hstep as <-. by split.
Qed.

Lemma step_defined (o : op) (ops : list op) (wb : Workbench) :
  within (o :: ops) (length (tools wb)) = true →
  ∃ wb1, step o wb = Some wb1 ∧ within ops (length (tools wb1)) = true.
Proof.
  destruct o as [tool| |]; cbn [within step].
  - intros H. by eexists.
  - destruct wb as [[|top rest] t0 b0]; cbn [tools length]; [discriminate|].
    intros H. rewrite undisplay_cons. by eexists.
  - intros H. by eexists.
Qed.

Lemma run_consistent (ops : list op) : ∀ wb,
  consistent wb → within ops (length (tools wb)) = true →
  ∃ wb', run ops wb = Some wb' ∧ consistent wb'.
Proof.
  induction ops as [|o ops IH]; intros wb Hc Hw; [by exists wb|].
  destruct (step_defined o ops wb Hw) as (wb1 & Hstep & Hw1).
  cbn [run]. rewrite Hstep.
  apply IH; [by apply (step_consistent o wb) | exact Hw1].
Qed.

End UIFacts.



(** ** Pop-ups *)

Module PopUpFacts.

Lemma lookup_fresh (ds : list UI.Deferred) (x : UI.Deferred) :
  (ds ++ [x])%list !! length ds = Some x.
Proof. by rewrite list_lookup_middle. Qed.

Lemma insert_fresh (ds : list UI.Deferred) (x y : UI.Deferred) :
  <[length ds := y]> (ds ++ [x])%list = (ds ++ [y])%list.
Proof.
  rewrite insert_app_r_alt by lia. by rewrite Nat.sub_diag.
Qed.

(** Firing a deferred leaves every fired deferred as it was. *)
Lemma callback_keeps_fired (d d' : nat) (r r' : option string) (w : World) :
  deferreds w !! d = Some (UI.Fired r) →
  deferreds (callback d' r' w).2 !! d = Some (UI.Fired r).
Proof.
  intros Hd. unfold callback.
  destruct (deferreds w !! d') as [[|r0]|] eqn:Hd'; cbn; try exact Hd.
  destruct (decide (d' = d)) as [->|Hne]; [congruence|].
  by rewrite list_lookup_insert_ne.
Qed.

Lemma callback_fired (d : nat) (r r' : option string) (w : World) :
  deferreds w !! d = Some (UI.Fired r) →
  callback d r' w = (Failure (mkExn AlreadyCalledError "AlreadyCalledError()"), w).
Proof. intros Hd. unfold callback. by rewrite Hd. Qed.

End PopUpFacts.

(** C8: a prompt displayed on any workbench is on top of the stack with its
    deferred pending; when the user types a text and confirms, the deferred
    is fired with exactly that text and the stack is what it was before the
    prompt was displayed; a fired deferred cannot fire again: a second
    firing raises and changes nothing. *)
Theorem prompt_resolves_with_entered_text (w : World) (name promptText text : string) :
  ∃ d w1 w2 w3,
    prompt name promptText w = (Success d, w1)
    ∧ UI.tools (workbench w1) = UI.Prompt name promptText "" d :: UI.tools (workbench w)
    ∧ deferreds w1 !! d = Some UI.Pending
    ∧ insert_text text w1 = (Success tt, w2)
    ∧ click w2 = (Success (Some (d, Some text)), w3)
    ∧ deferreds w3 !! d = Some (UI.Fired (Some text))
    ∧ UI.tools (workbench w3) = UI.tools (workbench w)
    ∧ ∀ again, callback d again w3
               = (Failure (mkExn AlreadyCalledError "AlreadyCalledError()"), w3).
Proof.
  destruct w as [[stack t0 b0] ds disk lg].
  exists (length ds). do 3 eexists.
  split; [reflexivity|]. split; [reflexivity|].
  split; [apply PopUpFacts.lookup_fresh|].
  split; [reflexivity|].
  split.
  { unfold click. cbn [workbench UI.tools]. unfold bind at 1.
    unfold callback. cbn [deferreds]. rewrite PopUpFacts.lookup_fresh.
    rewrite PopUpFacts.insert_fresh. unfold bind, undisplay. cbn [workbench].
    rewrite UIFacts.undisplay_cons. reflexivity. }
  split; [apply PopUpFacts.lookup_fresh|].
  split; [reflexivity|].
  intros again. apply PopUpFacts.callback_fired with (r := Some text).
  apply PopUpFacts.lookup_fresh.
Qed.

(** ** The connection attempt *)

Module ConnectFacts.

(** The splash is displayed and the connection requested. *)
Lemma _connectWithContextFactory_run (ctxFactory : CertificateOptions) (w : World) :
  _connectWithContextFactory ctxFactory w
  = (Success tt,
     mkWorld (UI.display connectingSplash (workbench w)) (deferreds w) (fs w)
             (log w ++ [Displayed connectingSplash;
                        ConnectRequested "localhost" 4430 ctxFactory])).
Proof.
  unfold _connectWithContextFactory, bind, display, emit. cbn.
  by rewrite <- app_assoc.
Qed.

(** [closeSplash] on a stack with a tool on top: the tool is popped and
    the result handed on. *)
Lemma closeSplash_run (o : outcome (option AMP)) (top : UI.Tool)
      (rest : list UI.Tool) (t0 : string) (b0 : UI.Surface)
      (ds : list UI.Deferred) (disk : FS.t) (lg : list event) :
  closeSplash o (mkWorld (UI.mkWorkbench (top :: rest) t0 b0) ds disk lg)
  = (o, mkWorld (UI.mkWorkbench rest (UI.expectedTitle rest) (UI.layers rest))
                ds disk (lg ++ [Undisplayed])).
Proof.
  unfold closeSplash, bind, undisplay. cbn [workbench].
  rewrite UIFacts.undisplay_cons. by destruct o.
Qed.

(** The errback on a [ConnectError]: an alert is displayed, its deferred
    left pending, and [None] returned. *)
Lemma notifyFailure_run (f : exn) (w : World) :
  isConnectError f = true →
  notifyFailure f w
  = (Success None,
     mkWorld (UI.display (UI.Notification "Couldn't connect" (failureText f)
                            (length (deferreds w))) (workbench w))
             (deferreds w ++ [UI.Pending]) (fs w)
             (log w ++ [Notified "Couldn't connect" (failureText f);
                        Displayed (UI.Notification "Couldn't connect" (failureText f)
                                     (length (deferreds w)))])).
Proof.
  intros Hf. unfold notifyFailure, trap. rewrite Hf.
  unfold alert, notify, bind, ret, newDeferred, display, emit. cbn.
  by rewrite <- app_assoc.
Qed.

(** Any other failure goes through the errback as it is. *)
Lemma notifyFailure_other (f : exn) (w : World) :
  isConnectError f = false → notifyFailure f w = (Failure f, w).
Proof. intros Hf. unfold notifyFailure, trap. by rewrite Hf. Qed.

Lemma append_empty_r (s : string) : s +:+ "" = s.
Proof.
  induction s as [|a s IH]; [reflexivity|].
  change (String a (s +:+ "") = String a s). by f_equal.
Qed.

Lemma failureText_contains (f : exn) : contains (failureText f) (exn_repr f).
Proof.
  exists ("Connection failed! Check internet connection, or try again later. "
          +:+ String "010"%char "Error: "), "".
  by rewrite append_empty_r.
Qed.

(** The whole chain on a [ConnectError], from the world in which the
    connection was requested. *)
Lemma connectionFired_ConnectError (ctxFactory : CertificateOptions) (f : exn) (w : World) :
  isConnectError f = true →
  let popUp := UI.Notification "Couldn't connect" (failureText f) (length (deferreds w)) in
  connectionFired (Failure f) (_connectWithContextFactory ctxFactory w).2
  = (Success None,
     mkWorld (UI.display popUp
                (UI.mkWorkbench (UI.tools (workbench w))
                                (UI.expectedTitle (UI.tools (workbench w)))
                                (UI.layers (UI.tools (workbench w)))))
             (deferreds w ++ [UI.Pending]) (fs w)
             (log w ++ [Displayed connectingSplash;
                        ConnectRequested "localhost" 4430 ctxFactory;
                        Undisplayed;
                        Notified "Couldn't connect" (failureText f);
                        Displayed popUp])).
Proof.
  intros Hf popUp. destruct w as [[stack t0 b0] ds disk lg].
  rewrite _connectWithContextFactory_run.
  unfold connectionFired, addErrback, addBoth, call. cbn [snd outcome_map].
  unfold UI.display at 1, UI.justDisplay at 1. cbn [UI.tools UI.title UI.body].
  rewrite closeSplash_run, (notifyFailure_run f _ Hf).
  cbn [workbench deferreds fs log]. by rewrite <- !app_assoc.
Qed.

(** Dismissing a notification whose deferred is the last one made. *)
Lemma click_notification (n text : string) (stack : list UI.Tool) (t0 : string)
      (b0 : UI.Surface) (ds : list UI.Deferred) (disk : FS.t) (lg : list event) :
  click (mkWorld (UI.mkWorkbench (UI.Notification n text (length ds) :: stack) t0 b0)
                 (ds ++ [UI.Pending]) disk lg)
  = (Success (Some (length ds, None)),
     mkWorld (UI.mkWorkbench stack (UI.expectedTitle stack) (UI.layers stack))
             (ds ++ [UI.Fired None]) disk (lg ++ [Undisplayed])).
Proof.
  unfold click. cbn [workbench UI.tools]. unfold bind at 1.
  unfold callback. cbn [deferreds]. rewrite PopUpFacts.lookup_fresh.
  rewrite PopUpFacts.insert_fresh. unfold bind, undisplay. cbn [workbench].
  by rewrite UIFacts.undisplay_cons.
Qed.

Lemma count_app (p : event → bool) (l1 l2 : list event) :
  count p (l1 ++ l2) = count p l1 + count p l2.
Proof. unfold count. by rewrite List.filter_app, length_app. Qed.

End ConnectFacts.

(** C5: whatever the connection attempt ends with, a protocol or a failure,
    the splash that [_connectWithContextFactory] displayed is popped by
    [closeSplash], and what the attempt ended with is handed on unchanged:
    the stack is again the one from before the attempt, and the log shows
    one display, the connection request and one undisplay.  The whole chain
    of callbacks undisplays once, whatever the attempt ended with. *)
Theorem closeSplash_pops_once_and_passes
        (ctxFactory : CertificateOptions) (o : outcome AMP) (w : World) :
  ∃ w1 w2,
    _connectWithContextFactory ctxFactory w = (Success tt, w1)
    ∧ UI.tools (workbench w1) = connectingSplash :: UI.tools (workbench w)
    ∧ addBoth (call (outcome_map Some o)) closeSplash w1 = (outcome_map Some o, w2)
    ∧ UI.tools (workbench w2) = UI.tools (workbench w)
    ∧ log w2 = (log w ++ [Displayed connectingSplash;
                          ConnectRequested "localhost" 4430 ctxFactory;
                          Undisplayed])%list
    ∧ fs w2 = fs w
    ∧ deferreds w2 = deferreds w
    ∧ count isUndisplayed (log (connectionFired o w1).2)
      = count isUndisplayed (log w) + 1.
Proof.
  assert (Hchain : ∀ w1 w2,
             addBoth (call (outcome_map Some o)) closeSplash w1 = (outcome_map Some o, w2) →
             connectionFired o w1
             = match o with
               | Success a => (Success (Some a), w2)
               | Failure e => notifyFailure e w2
               end).
  { intros w1 w2 H. unfold connectionFired, addErrback. rewrite H. by destruct o. }
  destruct w as [[stack t0 b0] ds disk lg].
  do 2 eexists. split; [apply ConnectFacts._connectWithContextFactory_run|].
  split; [reflexivity|].
  assert (Hclose : ∀ lg1,
             addBoth (call (outcome_map Some o)) closeSplash
               (mkWorld (UI.display connectingSplash (UI.mkWorkbench stack t0 b0))
                        ds disk lg1)
             = (outcome_map Some o,
                mkWorld (UI.mkWorkbench stack (UI.expectedTitle stack) (UI.layers stack))
                        ds disk (lg1 ++ [Undisplayed]))).
  { intros lg1. unfold addBoth, call. apply ConnectFacts.closeSplash_run. }
  split; [apply Hclose|].
  cbn [workbench UI.tools log fs deferreds].
  split; [reflexivity|]. split; [by rewrite <- app_assoc|].
  split; [reflexivity|]. split; [reflexivity|].
  rewrite (Hchain _ _ (Hclose _)). destruct o as [a|e].
  - cbn [snd log]. rewrite !ConnectFacts.count_app. cbn. lia.
  - destruct (isConnectError e) eqn:He.
    + rewrite (ConnectFacts.notifyFailure_run e _ He). cbn [snd log].
      rewrite !ConnectFacts.count_app. cbn. lia.
    + rewrite (ConnectFacts.notifyFailure_other e _ He). cbn [snd log].
      rewrite !ConnectFacts.count_app. cbn. lia.
Qed.

(** C1, as the code has it: when the connection attempt fails with a
    [ConnectError], one notification is displayed, on top of the stack from
    before the attempt, whose text contains the [repr] of the error; the
    notification can be dismissed, which pops it; and the deferred of
    [connect] fires with the success result [None]: the errback has handled
    the failure. *)
Theorem connectError_alerts_and_resolves_None
        (ctxFactory : CertificateOptions) (f : exn) (w : World) :
  isConnectError f = true →
  ∃ w1 w2 w3 d,
    _connectWithContextFactory ctxFactory w = (Success tt, w1)
    ∧ connectionFired (Failure f) w1 = (Success None, w2)
    ∧ UI.tools (workbench w2)
      = UI.Notification "Couldn't connect" (failureText f) d :: UI.tools (workbench w)
    ∧ contains (failureText f) (exn_repr f)
    ∧ count isNotified (log w2) = count isNotified (log w) + 1
    ∧ click w2 = (Success (Some (d, None)), w3)
    ∧ UI.tools (workbench w3) = UI.tools (workbench w).
Proof.
  intros Hf.
  pose proof (ConnectFacts.connectionFired_ConnectError ctxFactory f w Hf) as Hrun.
  rewrite ConnectFacts._connectWithContextFactory_run in Hrun. cbn [snd] in Hrun.
  do 3 eexists. exists (length (deferreds w)).
  split; [apply ConnectFacts._connectWithContextFactory_run|].
  split; [exact Hrun|]. cbn [workbench UI.display UI.justDisplay UI.tools log].
  split; [reflexivity|]. split; [apply ConnectFacts.failureText_contains|].
  split; [rewrite ConnectFacts.count_app; cbn; lia|].
  split; [apply ConnectFacts.click_notification | reflexivity].
Qed.

(** A refused connection on an empty workbench. *)
Lemma connectError_alerts_and_resolves_None_witness :
  ∃ w1 w2 w3 d,
    _connectWithContextFactory Sample.ctxFactory Sample.world = (Success tt, w1)
    ∧ connectionFired (Failure Sample.refused) w1 = (Success None, w2)
    ∧ UI.tools (workbench w2)
      = UI.Notification "Couldn't connect" (failureText Sample.refused) d
        :: UI.tools (workbench Sample.world)
    ∧ contains (failureText Sample.refused) (exn_repr Sample.refused)
    ∧ count isNotified (log w2) = count isNotified (log Sample.world) + 1
    ∧ click w2 = (Success (Some (d, None)), w3)
    ∧ UI.tools (workbench w3) = UI.tools (workbench Sample.world).
Proof. apply connectError_alerts_and_resolves_None. reflexivity. Defined.

(** C1, as the specification has it, fails: a refused connection is a
    [ConnectError], and the deferred of [connect] fires with a success
    result, not with a failure. *)
Lemma connect_refused_is_not_a_failure :
  isConnectError Sample.refused = true
  ∧ ¬ ∃ e w,
      connectionFired (Failure Sample.refused)
        (_connectWithContextFactory Sample.ctxFactory Sample.world).2
      = (Failure e, w).
Proof.
  split; [reflexivity|]. intros (e & w & H).
  rewrite (ConnectFacts.connectionFired_ConnectError
             Sample.ctxFactory Sample.refused Sample.world eq_refl) in H.
  discriminate H.
Qed.

(** C10: on a [ConnectError] the deferred of [connect] fires in the very
    step in which the notification is displayed, with no click in between:
    when it fires, the notification is on top of the stack and its own
    deferred, which nothing holds, is still pending; it fires only when the
    user dismisses the notification later. *)
Theorem connect_fires_before_dismissal
        (ctxFactory : CertificateOptions) (f : exn) (w : World) :
  isConnectError f = true →
  ∃ w1 w2 w3 d,
    _connectWithContextFactory ctxFactory w = (Success tt, w1)
    ∧ connectionFired (Failure f) w1 = (Success None, w2)
    ∧ UI.tools (workbench w2)
      = UI.Notification "Couldn't connect" (failureText f) d :: UI.tools (workbench w)
    ∧ deferreds w2 !! d = Some UI.Pending
    ∧ count isUndisplayed (log w2) = count isUndisplayed (log w) + 1
    ∧ click w2 = (Success (Some (d, None)), w3)
    ∧ deferreds w3 !! d = Some (UI.Fired None).
Proof.
  intros Hf.
  pose proof (ConnectFacts.connectionFired_ConnectError ctxFactory f w Hf) as Hrun.
  rewrite ConnectFacts._connectWithContextFactory_run in Hrun. cbn [snd] in Hrun.
  do 3 eexists. exists (length (deferreds w)).
  split; [apply ConnectFacts._connectWithContextFactory_run|].
  split; [exact Hrun|].
  cbn [workbench UI.display UI.justDisplay UI.tools log deferreds].
  split; [reflexivity|]. split; [apply PopUpFacts.lookup_fresh|].
  split; [rewrite ConnectFacts.count_app; cbn; lia|].
  split; [apply ConnectFacts.click_notification | apply PopUpFacts.lookup_fresh].
Qed.

(** A timed-out connection under a tool that is already displayed. *)
Lemma connect_fires_before_dismissal_witness :
  ∃ w1 w2 w3 d,
    _connectWithContextFactory Sample.ctxFactory
      (mkWorld (UI.display (UI.AppTool "Launcher" 0) UI.empty) [] Sample.disk [])
    = (Success tt, w1)
    ∧ connectionFired (Failure (mkExn TimeoutError "TimeoutError()")) w1 = (Success None, w2)
    ∧ UI.tools (workbench w2)
      = UI.Notification "Couldn't connect"
          (failureText (mkExn TimeoutError "TimeoutError()")) d
        :: [UI.AppTool "Launcher" 0]
    ∧ deferreds w2 !! d = Some UI.Pending
    ∧ count isUndisplayed (log w2) = 0 + 1
    ∧ click w2 = (Success (Some (d, None)), w3)
    ∧ deferreds w3 !! d = Some (UI.Fired None).
Proof.
  apply (connect_fires_before_dismissal Sample.ctxFactory
           (mkExn TimeoutError "TimeoutError()")
           (mkWorld (UI.display (UI.AppTool "Launcher" 0) UI.empty) [] Sample.disk [])).
  reflexivity.
Defined.

(** ** Credential generation *)

Module CredentialFacts.

Lemma bind_Success {A B} (m : M A) (k : A → M B) (w w1 : World) (a : A) :
  m w = (Success a, w1) → bind m k w = k a w1.
Proof. intros H. unfold bind. by rewrite H. Qed.

Lemma bind_Failure {A B} (m : M A) (k : A → M B) (w w1 : World) (e : exn) :
  m w = (Failure e, w1) → bind m k w = (Failure e, w1).
Proof. intros H. unfold bind. by rewrite H. Qed.

Lemma bind_inv {A B} (m : M A) (k : A → M B) (w w2 : World) (b : B) :
  bind m k w = (Success b, w2) →
  ∃ a w1, m w = (Success a, w1) ∧ k a w1 = (Success b, w2).
Proof.
  unfold bind. destruct (m w) as [[a|e] w1]; [eauto | discriminate].
Qed.

(** *** What is kept on the disk *)

Lemma keeps_bind {A B} (q : FS.path) (m : M A) (k : A → M B) :
  keepsNode q m → (∀ a, keepsNode q (k a)) → keepsNode q (bind m k).
Proof.
  intros Hm Hk w. unfold bind. specialize (Hm w).
  destruct (m w) as [[a|e] w1]; cbn [snd] in *; [|exact Hm].
  by rewrite Hk.
Qed.

Lemma keeps_ret {A} (q : FS.path) (a : A) : keepsNode q (ret a).
Proof. by intros w. Qed.

Lemma keeps_raise {A} (q : FS.path) (e : exn) : keepsNode q (raise e : M A).
Proof. by intros w. Qed.

Lemma keeps_call {A} (q : FS.path) (o : outcome A) : keepsNode q (call o).
Proof. by intros w. Qed.

Lemma keeps_emit (q : FS.path) (e : event) : keepsNode q (emit e).
Proof. by intros w. Qed.

Lemma keeps_display (q : FS.path) (tool : UI.Tool) : keepsNode q (display tool).
Proof. by intros w. Qed.

Lemma keeps_undisplay (q : FS.path) : keepsNode q undisplay.
Proof. intros w. unfold undisplay. by destruct (UI.undisplay (workbench w)). Qed.

Lemma keeps_prompt (q : FS.path) (n p : string) : keepsNode q (prompt n p).
Proof. by intros w. Qed.

Lemma keeps_insert_text (q : FS.path) (text : string) : keepsNode q (insert_text text).
Proof.
  intros w. unfold insert_text.
  by destruct (UI.tools (workbench w)) as [|[]].
Qed.

Lemma keeps_callback (q : FS.path) (d : nat) (r : option string) :
  keepsNode q (callback d r).
Proof.
  intros w. unfold callback. by destruct (deferreds w !! d) as [[]|].
Qed.

Lemma keeps_click (q : FS.path) : keepsNode q click.
Proof.
  intros w. unfold click.
  destruct (UI.tools (workbench w)) as [|[] rest]; try done.
  - apply (keeps_bind q); [apply keeps_callback|]. intros _.
    apply (keeps_bind q); [apply keeps_undisplay|]. intros _. apply keeps_ret.
  - apply (keeps_bind q); [apply keeps_callback|]. intros _.
    apply (keeps_bind q); [apply keeps_undisplay|]. intros _. apply keeps_ret.
Qed.

Lemma keeps_open_wb (q p : FS.path) : q ≠ p → keepsNode q (onFile (FS.open_wb p)).
Proof.
  intros Hne w. unfold onFile, FS.open_wb.
  destruct p as [|c parent]; [done|].
  destruct (FS.node_at (fs w) (c :: parent)) as [[|]|];
    destruct (FS.node_at (fs w) parent) as [[|]|]; cbn [snd fs]; try done;
    by apply FSFacts.node_at_insert_ne.
Qed.

Lemma keeps_close (X : Externals) (q p : FS.path) (buffer : string) :
  q ≠ p → keepsNode q (close X p buffer).
Proof.
  intros Hne w. unfold close.
  destruct (close_error X buffer) as [[e n]|];
    unfold onFile, FS.append;
    (destruct (fs w !! p) as [[|c]|] eqn:Hp; cbn [snd fs]; try done;
     by apply FSFacts.node_at_insert_ne).
Qed.

Lemma keeps_with_open_wb (X : Externals) (q p : FS.path) (body : Buffered unit) :
  q ≠ p → keepsNode q (with_open_wb X p body).
Proof.
  intros Hne. unfold with_open_wb.
  apply keeps_bind; [by apply keeps_open_wb|]. intros _.
  destruct (body "") as [returned buffer].
  apply keeps_bind; [by apply keeps_close|]. intros _. apply keeps_call.
Qed.

Lemma keeps__makeCredentials (X : Externals) (q path : FS.path) (email : string) :
  q ≠ FS.child path "client.pem" → keepsNode q (_makeCredentials X path email).
Proof.
  intros Hne. unfold _makeCredentials.
  repeat first
    [ by apply keeps_with_open_wb
    | apply keeps_bind; [|intros ?]
    | apply keeps_display | apply keeps_emit | apply keeps_call
    | apply keeps_undisplay ].
Qed.

(** *** The file, step by step *)

Lemma open_wb_new (fs0 : FS.t) (c : string) (parent : FS.path) :
  FS.isdir fs0 parent = true → FS.isdir fs0 (c :: parent) = false →
  FS.open_wb (c :: parent) fs0 = (Success tt, <[c :: parent := FS.File ""]> fs0).
Proof.
  unfold FS.isdir, FS.open_wb. intros Hparent Hp.
  destruct (FS.node_at fs0 (c :: parent)) as [[|]|];
    destruct (FS.node_at fs0 parent) as [[|]|]; done.
Qed.

Lemma append_open (fs0 : FS.t) (p : FS.path) (old data : string) :
  FS.append p data (<[p := FS.File old]> fs0) = <[p := FS.File (old +:+ data)]> fs0.
Proof. unfold FS.append. by rewrite lookup_insert_eq, insert_insert_eq. Qed.

(** The close of a file that was just created or emptied. *)
Lemma close_run (X : Externals) (p : FS.path) (buffer : string)
      (wb : UI.Workbench) (ds : list UI.Deferred) (fs0 : FS.t) (lg : list event) :
  close_error X buffer = None →
  close X p buffer (mkWorld wb ds (<[p := FS.File ""]> fs0) lg)
  = (Success tt,
     mkWorld wb ds (<[p := FS.File buffer]> fs0)
             (lg ++ [DiskChanged (<[p := FS.File buffer]> fs0)])).
Proof.
  intros Hc. unfold close. rewrite Hc. unfold onFile. cbn [fs workbench deferreds log].
  by rewrite append_open.
Qed.

Lemma close_raise (X : Externals) (p : FS.path) (buffer : string) (e : exn) (n : nat)
      (wb : UI.Workbench) (ds : list UI.Deferred) (fs0 : FS.t) (lg : list event) :
  close_error X buffer = Some (e, n) →
  close X p buffer (mkWorld wb ds (<[p := FS.File ""]> fs0) lg)
  = (Failure e,
     mkWorld wb ds (<[p := FS.File (String.substring 0 n buffer)]> fs0)
             (lg ++ [DiskChanged (<[p := FS.File (String.substring 0 n buffer)]> fs0)])).
Proof.
  intros Hc. unfold close. rewrite Hc. unfold onFile. cbn [fs workbench deferreds log].
  by rewrite append_open.
Qed.

(** The body of the [with] block when both serializations succeed. *)
Lemma body_run (X : Externals) (key : PKey) (cert : X509) (k c : string) :
  dump_privatekey X key = Success k → dump_certificate X cert = Success c →
  (keyPEM <- buffered_call (dump_privatekey X key) ;;
   write keyPEM ;;
   certPEM <- buffered_call (dump_certificate X cert) ;;
   write certPEM)%file ""
  = (Success tt, k +:+ c).
Proof.
  intros Hk Hc. unfold buffered_bind, buffered_call, write. by rewrite Hk, Hc.
Qed.

Ltac run_credentials Hkey Hcert Hk Hc Hdir Hpem :=
  unfold _makeCredentials, with_open_wb, bind, display, emit, call;
  unfold onFile at 1;
  cbn [fs workbench deferreds log];
  rewrite Hkey, Hcert; unfold FS.child in *;
  rewrite (open_wb_new _ _ _ Hdir Hpem), (body_run _ _ _ _ _ Hk Hc).

(** Every call succeeds: the file, empty from its opening on, ends up with
    the key followed by the certificate when it is closed, and the splash is
    popped. *)
Lemma _makeCredentials_returns (X : Externals) (path : FS.path) (email : string)
      (w : World) (key : PKey) (cert : X509) (k c : string) :
  generateKey X = Success key → makeCertificate X key email = Success cert →
  dump_privatekey X key = Success k → dump_certificate X cert = Success c →
  close_error X (k +:+ c) = None →
  FS.isdir (fs w) path = true → FS.isdir (fs w) (FS.child path "client.pem") = false →
  let pemFile := FS.child path "client.pem" in
  _makeCredentials X path email w
  = (Success tt,
     mkWorld (UI.mkWorkbench (UI.tools (workbench w))
                             (UI.expectedTitle (UI.tools (workbench w)))
                             (UI.layers (UI.tools (workbench w))))
             (deferreds w)
             (<[pemFile := FS.File (k +:+ c)]> (fs w))
             (log w ++ [Displayed credentialSplash; KeyRequested;
                        CertificateRequested email;
                        DiskChanged (<[pemFile := FS.File ""]> (fs w));
                        DiskChanged (<[pemFile := FS.File (k +:+ c)]> (fs w));
                        Undisplayed])).
Proof.
  intros Hkey Hcert Hk Hc Hclose Hdir Hpem pemFile. subst pemFile.
  run_credentials Hkey Hcert Hk Hc Hdir Hpem.
  rewrite (close_run X _ (k +:+ c) _ _ _ _ Hclose).
  unfold undisplay, UI.display, UI.justDisplay. cbn [workbench UI.tools UI.title UI.body].
  rewrite UIFacts.undisplay_cons. unfold emit. cbn [fs workbench deferreds log].
  by rewrite <- !app_assoc.
Qed.

(** The close raises: the file stays with the bytes that got through, and
    the splash stays displayed. *)
Lemma _makeCredentials_close_raises (X : Externals) (path : FS.path)
      (email : string) (w : World) (key : PKey) (cert : X509) (k c : string)
      (e : exn) (n : nat) :
  generateKey X = Success key → makeCertificate X key email = Success cert →
  dump_privatekey X key = Success k → dump_certificate X cert = Success c →
  close_error X (k +:+ c) = Some (e, n) →
  FS.isdir (fs w) path = true → FS.isdir (fs w) (FS.child path "client.pem") = false →
  let pemFile := FS.child path "client.pem" in
  let left := String.substring 0 n (k +:+ c) in
  _makeCredentials X path email w
  = (Failure e,
     mkWorld (UI.display credentialSplash (workbench w)) (deferreds w)
             (<[pemFile := FS.File left]> (fs w))
             (log w ++ [Displayed credentialSplash; KeyRequested;
                        CertificateRequested email;
                        DiskChanged (<[pemFile := FS.File ""]> (fs w));
                        DiskChanged (<[pemFile := FS.File left]> (fs w))])).
Proof.
  intros Hkey Hcert Hk Hc Hclose Hdir Hpem pemFile left. subst pemFile left.
  run_credentials Hkey Hcert Hk Hc Hdir Hpem.
  rewrite (close_raise X _ (k +:+ c) e n _ _ _ _ Hclose).
  by rewrite <- !app_assoc.
Qed.

(** When [_makeCredentials] returns, every call in it has succeeded. *)
Lemma _makeCredentials_inv (X : Externals) (path : FS.path) (email : string)
      (w w1 : World) :
  FS.isdir (fs w) path = true →
  _makeCredentials X path email w = (Success tt, w1) →
  ∃ key cert k c,
    generateKey X = Success key ∧ makeCertificate X key email = Success cert
    ∧ dump_privatekey X key = Success k ∧ dump_certificate X cert = Success c
    ∧ close_error X (k +:+ c) = None
    ∧ FS.isdir (fs w) (FS.child path "client.pem") = false.
Proof.
  intros Hdir.
  unfold _makeCredentials, with_open_wb, bind, display, emit, call.
  unfold onFile at 1. cbn [fs workbench deferreds log].
  destruct (generateKey X) as [key|] eqn:Hkey; [|done].
  destruct (makeCertificate X key email) as [cert|] eqn:Hcert; [|done].
  destruct (FS.isdir (fs w) (FS.child path "client.pem")) eqn:Hpem.
  { unfold FS.isdir, FS.child, FS.open_wb in *.
    by destruct (FS.node_at (fs w) ("client.pem" :: path)) as [[|]|]. }
  unfold FS.child in *. rewrite (open_wb_new _ _ _ Hdir Hpem).
  unfold buffered_bind, buffered_call, write.
  destruct (dump_privatekey X key) as [k|] eqn:Hk.
  2: { unfold close. destruct (close_error X "") as [[e0 n0]|]; done. }
  destruct (dump_certificate X cert) as [c|] eqn:Hc.
  2: { unfold close. destruct (close_error X ("" +:+ k)) as [[e0 n0]|]; done. }
  change (("" +:+ k) +:+ c) with (k +:+ c).
  unfold close. destruct (close_error X (k +:+ c)) as [[e0 n0]|] eqn:Hclose; [done|].
  intros _. by exists key, cert, k, c.
Qed.

Lemma seenAt_app (p : FS.path) (l1 l2 : list event) :
  seenAt p (l1 ++ l2) = (seenAt p l1 ++ seenAt p l2)%list.
Proof. unfold seenAt. apply omap_app. Qed.

End CredentialFacts.

(** C2 fails on the code: when key generation raises, [_makeCredentials]
    raises the same error and its splash is still on top of the stack, with
    no undisplay in the log; the same when the disk fills up while the file
    is closed.  When nothing raises the splash is popped. *)
Lemma _makeCredentials_raise_leaves_splash :
  (∃ w,
     _makeCredentials Sample.noKey Sample.dataPath "a@b.com" Sample.world
     = (Failure Sample.keyFailure, w)
     ∧ UI.tools (workbench w) = [credentialSplash]
     ∧ count isUndisplayed (log w) = 0)
  ∧ (∃ w,
       _makeCredentials Sample.diskFull Sample.dataPath "a@b.com" Sample.world
       = (Failure Sample.noSpaceLeft, w)
       ∧ UI.tools (workbench w) = [credentialSplash]
       ∧ count isUndisplayed (log w) = 0)
  ∧ (∃ w,
       _makeCredentials Sample.sound Sample.dataPath "a@b.com" Sample.world
       = (Success tt, w)
       ∧ UI.tools (workbench w) = []
       ∧ count isUndisplayed (log w) = 1).
Proof.
  split; [|split]; eexists; (split; [by vm_compute|]); split; by vm_compute.
Qed.




(** ** The context factory *)

Module IdentityFacts.

Lemma locateDataPath_there (home : FS.path) (_system : string) (disk : FS.t) :
  FS.isdir disk (_getDataPath home _system) = true →
  locateDataPath home _system disk = (Success (_getDataPath home _system), disk).
Proof. intros Hdir. unfold locateDataPath. by rewrite Hdir. Qed.

Lemma locateDataPath_Success (home path : FS.path) (_system : string) (disk disk1 : FS.t) :
  locateDataPath home _system disk = (Success path, disk1) →
  path = _getDataPath home _system ∧ FS.isdir disk1 path = true.
Proof.
  unfold locateDataPath.
  destruct (FS.isdir disk (_getDataPath home _system)) eqn:Hdir; cbn [negb].
  - by intros [= <- <-].
  - destruct (FS.makedirs (_getDataPath home _system) disk) as [[[]|e] disk2] eqn:Hmk;
      [|done].
    intros [= <- <-]. split; [done|]. by apply (FSFacts.makedirs_Success _ disk).
Qed.

Lemma locateDataPath_keeps (home q : FS.path) (_system : string) (disk : FS.t) :
  ¬ q `suffix_of` _getDataPath home _system →
  FS.node_at (locateDataPath home _system disk).2 q = FS.node_at disk q.
Proof.
  intros Hq. unfold locateDataPath.
  destruct (FS.isdir disk (_getDataPath home _system)); cbn [negb]; [done|].
  pose proof (FSFacts.makedirs_keeps (_getDataPath home _system) q disk Hq) as Hk.
  by destruct (FS.makedirs (_getDataPath home _system) disk) as [[[]|e] disk2].
Qed.

Lemma child_not_above (path : FS.path) (name : string) :
  ¬ FS.child path name `suffix_of` path.
Proof. intros H. apply suffix_length in H. cbn in H. lia. Qed.

Lemma loadContextFactory_run (X : Externals) (pemPath : FS.path) (w : World) :
  loadContextFactory X pemPath w = (contextOnDisk X (fs w) pemPath, w).
Proof.
  unfold loadContextFactory, contextOnDisk, bind, call, ret.
  destruct (FS.read (fs w) pemPath) as [pem|e]; [|done].
  by destruct (loadPEM X pem).
Qed.

Lemma ensureIdentity_not_located (X : Externals) (email : string) (w : World)
      (e : exn) (disk : FS.t) :
  locateDataPath (home X) (thisSystem X) (fs w) = (Failure e, disk) →
  ensureIdentity X email w = (Failure e, located w disk).
Proof.
  intros Hloc. unfold ensureIdentity, _getContextFactory, bind, onFS.
  by rewrite Hloc.
Qed.

Lemma _getContextFactory_existing (X : Externals) (w : World) (path : FS.path)
      (disk : FS.t) :
  locateDataPath (home X) (thisSystem X) (fs w) = (Success path, disk) →
  FS.isfile disk (FS.child path "client.pem") = true →
  _getContextFactory X w
  = (outcome_map Returned (contextOnDisk X disk (FS.child path "client.pem")),
     located w disk).
Proof.
  intros Hloc Hfile. unfold _getContextFactory, bind at 1, onFS.
  rewrite Hloc. cbn [fs]. rewrite Hfile. cbn [negb].
  unfold bind. rewrite loadContextFactory_run. cbn [fs].
  by destruct (contextOnDisk X disk (FS.child path "client.pem")).
Qed.

Lemma ensureIdentity_existing (X : Externals) (email : string) (w : World)
      (path : FS.path) (disk : FS.t) :
  locateDataPath (home X) (thisSystem X) (fs w) = (Success path, disk) →
  FS.isfile disk (FS.child path "client.pem") = true →
  ensureIdentity X email w
  = (contextOnDisk X disk (FS.child path "client.pem"), located w disk).
Proof.
  intros Hloc Hfile. unfold ensureIdentity, bind.
  rewrite (_getContextFactory_existing X w path disk Hloc Hfile).
  by destruct (contextOnDisk X disk (FS.child path "client.pem")).
Qed.

Lemma prompt_run (n p : string) (w : World) :
  prompt n p w
  = (Success (length (deferreds w)),
     mkWorld (UI.mkWorkbench (UI.Prompt n p "" (length (deferreds w))
                                :: UI.tools (workbench w))
                             n
                             (UI.Foreground (UI.Prompt n p "" (length (deferreds w)))
                                            (UI.body (workbench w))))
             (deferreds w ++ [UI.Pending]) (fs w)
             (log w ++ [Prompted n p;
                        Displayed (UI.Prompt n p "" (length (deferreds w)))])).
Proof.
  unfold prompt, newDeferred, bind, emit, display, ret. cbn.
  by rewrite <- app_assoc.
Qed.

Lemma click_prompt (n p entered : string) (stack : list UI.Tool) (t0 : string)
      (b0 : UI.Surface) (ds : list UI.Deferred) (disk : FS.t) (lg : list event) :
  click (mkWorld (UI.mkWorkbench (UI.Prompt n p entered (length ds) :: stack) t0 b0)
                 (ds ++ [UI.Pending]) disk lg)
  = (Success (Some (length ds, Some entered)),
     mkWorld (UI.mkWorkbench stack (UI.expectedTitle stack) (UI.layers stack))
             (ds ++ [UI.Fired (Some entered)]) disk (lg ++ [Undisplayed])).
Proof.
  unfold click. cbn [workbench UI.tools]. unfold bind at 1.
  unfold callback. cbn [deferreds]. rewrite PopUpFacts.lookup_fresh.
  rewrite PopUpFacts.insert_fresh. unfold bind, undisplay. cbn [workbench].
  by rewrite UIFacts.undisplay_cons.
Qed.

Lemma _getContextFactory_absent (X : Externals) (w : World) (path : FS.path)
      (disk : FS.t) :
  locateDataPath (home X) (thisSystem X) (fs w) = (Success path, disk) →
  FS.isfile disk (FS.child path "client.pem") = false →
  _getContextFactory X w
  = (Success (Yielded (length (deferreds w)) path),
     (prompt "E-mail entry" "Enter e-mail:" (located w disk)).2).
Proof.
  intros Hloc Hfile. unfold _getContextFactory, bind at 1, onFS.
  rewrite Hloc. cbn [fs]. rewrite Hfile. cbn [negb].
  unfold bind. fold (located w disk). by rewrite prompt_run.
Qed.

Lemma ensureIdentity_absent (X : Externals) (email : string) (w : World)
      (path : FS.path) (disk : FS.t) :
  locateDataPath (home X) (thisSystem X) (fs w) = (Success path, disk) →
  FS.isfile disk (FS.child path "client.pem") = false →
  ensureIdentity X email w = _getContextFactory_send X path email (answered w disk email).
Proof.
  intros Hloc Hfile. unfold ensureIdentity.
  rewrite (CredentialFacts.bind_Success _ _ _ _ _
             (_getContextFactory_absent X w path disk Hloc Hfile)).
  rewrite prompt_run. cbn [snd located workbench deferreds fs log].
  erewrite CredentialFacts.bind_Success by reflexivity.
  erewrite CredentialFacts.bind_Success by apply click_prompt.
  unfold answered. cbn [fs log]. by rewrite <- app_assoc.
Qed.

End IdentityFacts.

(** C4: when the identity file exists, in a tree-shaped file system, the
    context-factory step asks for nothing and generates nothing: it leaves
    the world as it is and returns the context factory read from the file.
    Hence, when one call has returned a context factory, the next call
    returns the same one and leaves the world as it is, and the first call
    has asked for the e-mail address and for a key exactly once when the file
    was not there, and not at all when it was. *)
Theorem ensureIdentity_provisions_once (X : Externals) (w : World) :
  let pemPath := FS.child (_getDataPath (home X) (thisSystem X)) "client.pem" in
  (FS.wf (fs w) → FS.isfile (fs w) pemPath = true →
   _getContextFactory X w
   = (outcome_map Returned (contextOnDisk X (fs w) pemPath), w))
  ∧ (∀ email1 email2 ctx w1,
       ensureIdentity X email1 w = (Success ctx, w1) →
       ensureIdentity X email2 w1 = (Success ctx, w1)
       ∧ contextOnDisk X (fs w1) pemPath = Success ctx
       ∧ count isPrompted (log w1)
         = count isPrompted (log w) + (if FS.isfile (fs w) pemPath then 0 else 1)
       ∧ count isKeyRequested (log w1)
         = count isKeyRequested (log w) + (if FS.isfile (fs w) pemPath then 0 else 1)).
Proof.
  intros pemPath. split.
  - intros Hwf Hfile.
    assert (Hdir : FS.isdir (fs w) (_getDataPath (home X) (thisSystem X)) = true).
    { apply (Hwf "client.pem"). unfold FS.isfile, pemPath, FS.child, FS.node_at in Hfile.
      destruct (fs w !! ("client.pem" :: _getDataPath (home X) (thisSystem X)));
        [eauto | discriminate]. }
    rewrite (IdentityFacts._getContextFactory_existing X w _ (fs w)
               (IdentityFacts.locateDataPath_there _ _ _ Hdir) Hfile).
    by destruct w.
  - intros email1 email2 ctx w1 Hrun.
    destruct (locateDataPath (home X) (thisSystem X) (fs w)) as [[path|e] disk] eqn:Hloc.
    2: { by rewrite (IdentityFacts.ensureIdentity_not_located X email1 w e disk Hloc) in Hrun. }
    destruct (IdentityFacts.locateDataPath_Success _ _ _ _ _ Hloc) as [-> Hdir].
    assert (Hsame : FS.isfile (fs w) pemPath = FS.isfile disk pemPath).
    { unfold FS.isfile.
      rewrite <- (IdentityFacts.locateDataPath_keeps (home X) pemPath (thisSystem X) (fs w))
        by apply IdentityFacts.child_not_above.
      by rewrite Hloc. }
    rewrite Hsame. fold pemPath in Hdir.
    destruct (FS.isfile disk pemPath) eqn:Hfile.
    + rewrite (IdentityFacts.ensureIdentity_existing X email1 w _ disk Hloc Hfile) in Hrun.
      injection Hrun as Hctx <-. fold pemPath in Hctx.
      assert (Hloc1 : locateDataPath (home X) (thisSystem X) (fs (located w disk))
                      = (Success (_getDataPath (home X) (thisSystem X)), disk))
        by (by apply IdentityFacts.locateDataPath_there).
      rewrite (IdentityFacts.ensureIdentity_existing X email2 _ _ disk Hloc1 Hfile).
      fold pemPath. rewrite Hctx. cbn [located fs log workbench deferreds].
      split; [reflexivity|]. split; [exact Hctx|]. split; lia.
    + rewrite (IdentityFacts.ensureIdentity_absent X email1 w _ disk Hloc Hfile) in Hrun.
      unfold _getContextFactory_send in Hrun.
      apply CredentialFacts.bind_inv in Hrun as ([] & w2 & Hmake & Hload).
      rewrite IdentityFacts.loadContextFactory_run in Hload.
      injection Hload as Hctx <-. fold pemPath in Hctx.
      destruct (CredentialFacts._makeCredentials_inv X _ email1
                  (answered w disk email1) w2 Hdir Hmake)
        as (key & cert & k & c & Hkey & Hcert & Hk & Hc & Hclose & Hpem).
      rewrite (CredentialFacts._makeCredentials_returns X _ email1
                 (answered w disk email1) key cert k c
                 Hkey Hcert Hk Hc Hclose Hdir Hpem) in Hmake.
      injection Hmake as <-. cbn [answered fs log workbench deferreds UI.tools] in *.
      fold pemPath in Hctx |- *.
      assert (Hdir2 : FS.isdir (<[pemPath := FS.File (k +:+ c)]> disk)
                        (_getDataPath (home X) (thisSystem X)) = true).
      { unfold FS.isdir. rewrite FSFacts.node_at_insert_ne; [exact Hdir|].
        intros Heq. apply (f_equal length) in Heq. cbn in Heq. lia. }
      assert (Hfile2 : FS.isfile (<[pemPath := FS.File (k +:+ c)]> disk) pemPath = true).
      { unfold FS.isfile, pemPath, FS.child. by rewrite FSFacts.node_at_insert_eq. }
      split.
      { erewrite IdentityFacts.ensureIdentity_existing;
          [| by apply IdentityFacts.locateDataPath_there | exact Hfile2].
        cbn [fs]. fold pemPath. by rewrite Hctx. }
      split; [exact Hctx|].
      rewrite !ConnectFacts.count_app. cbn. split; lia.
Qed.

(** With the identity file in place nothing is asked and nothing made, in
    this call and in the next. *)
Lemma ensureIdentity_provisions_once_witness :
  _getContextFactory Sample.sound Sample.provisioned
  = (Success (Returned Sample.ctxFactory), Sample.provisioned)
  ∧ ensureIdentity Sample.sound "someone@else.org" Sample.provisioned
    = (Success Sample.ctxFactory, Sample.provisioned)
  ∧ count isKeyRequested (log Sample.provisioned) = 0.
Proof.
  destruct (ensureIdentity_provisions_once Sample.sound Sample.provisioned) as [H1 H2].
  split.
  - apply H1; [|by vm_compute].
    apply FSFacts.wf_insert; [|by vm_compute|by vm_compute].
    apply FSFacts.wf_insert; [|by vm_compute|by vm_compute].
    apply FSFacts.wf_insert; [|by vm_compute|by vm_compute].
    apply FSFacts.wf_insert; [|by vm_compute|by vm_compute].
    apply FSFacts.wf_empty.
  - destruct (H2 "a@b.com" "someone@else.org" Sample.ctxFactory Sample.provisioned)
      as (Hagain & _ & _ & Hkeys); [by vm_compute|].
    split; [exact Hagain | reflexivity].
Defined.

(** Two calls in a row on a disk without identity file: one prompt and one
    key generation in all, and the same context factory twice. *)
Example ensureIdentity_twice :
  ∃ w1, ensureIdentity Sample.sound "a@b.com" Sample.world
        = (Success Sample.ctxFactory, w1)
        ∧ ensureIdentity Sample.sound "a@b.com" w1 = (Success Sample.ctxFactory, w1)
        ∧ count isPrompted (log w1) = 1
        ∧ count isKeyRequested (log w1) = 1.
Proof.
  eexists. split; [by vm_compute|]. split; [by vm_compute|]. split; by vm_compute.
Qed.

(** C9: the context factory that the step returns is the one that the
    contents of [client.pem] on the disk stand for, on both paths: when the
    file was there, and when [_makeCredentials] has just written it, whose
    key and certificate objects do not reach the result.  Hence two runs, one
    on each path, that end with the same contents of the file return the
    same context factory. *)
Theorem context_comes_from_disk (X : Externals) :
  let dataPath := _getDataPath (home X) (thisSystem X) in
  (∀ w w1 ctx,
     _getContextFactory X w = (Success (Returned ctx), w1) →
     contextOnDisk X (fs w1) (FS.child dataPath "client.pem") = Success ctx)
  ∧ (∀ path email w w1,
       _makeCredentials X path email w = (Success tt, w1) →
       _getContextFactory_send X path email w
       = (contextOnDisk X (fs w1) (FS.child path "client.pem"), w1))
  ∧ (∀ path email wA wA1 wB wB1 ctxA ctxB,
       _getContextFactory X wA = (Success (Returned ctxA), wA1) →
       _getContextFactory_send X path email wB = (Success ctxB, wB1) →
       FS.read (fs wA1) (FS.child dataPath "client.pem")
       = FS.read (fs wB1) (FS.child path "client.pem") →
       ctxA = ctxB).
Proof.
  intros dataPath.
  assert (HA : ∀ w w1 ctx,
             _getContextFactory X w = (Success (Returned ctx), w1) →
             contextOnDisk X (fs w1) (FS.child dataPath "client.pem") = Success ctx).
  { intros w w1 ctx Hrun.
    destruct (locateDataPath (home X) (thisSystem X) (fs w)) as [[path|e] disk] eqn:Hloc.
    2: { unfold _getContextFactory, bind, onFS in Hrun. by rewrite Hloc in Hrun. }
    destruct (IdentityFacts.locateDataPath_Success _ _ _ _ _ Hloc) as [-> _].
    fold dataPath in Hloc.
    destruct (FS.isfile disk (FS.child dataPath "client.pem")) eqn:Hfile.
    - rewrite (IdentityFacts._getContextFactory_existing X w _ disk Hloc Hfile) in Hrun.
      destruct (contextOnDisk X disk (FS.child dataPath "client.pem")) as [ctx'|e] eqn:Hctx;
        [|discriminate].
      cbn [outcome_map] in Hrun. injection Hrun as <- <-. exact Hctx.
    - by rewrite (IdentityFacts._getContextFactory_absent X w _ disk Hloc Hfile) in Hrun. }
  assert (HB : ∀ path email w w1,
             _makeCredentials X path email w = (Success tt, w1) →
             _getContextFactory_send X path email w
             = (contextOnDisk X (fs w1) (FS.child path "client.pem"), w1)).
  { intros path email w w1 Hmake. unfold _getContextFactory_send.
    rewrite (CredentialFacts.bind_Success _ _ _ _ _ Hmake).
    apply IdentityFacts.loadContextFactory_run. }
  split; [exact HA|]. split; [exact HB|].
  intros path email wA wA1 wB wB1 ctxA ctxB HrunA HrunB Hread.
  apply HA in HrunA.
  pose proof HrunB as Hsend. unfold _getContextFactory_send in Hsend.
  apply CredentialFacts.bind_inv in Hsend as ([] & w2 & Hmake & _).
  rewrite (HB _ _ _ _ Hmake) in HrunB. injection HrunB as HctxB <-.
  unfold contextOnDisk in HrunA, HctxB. rewrite Hread in HrunA. congruence.
Qed.

(** The context factory made after a first save is the one that the saved
    file stands for. *)
Lemma context_comes_from_disk_witness :
  let w1 := (_makeCredentials Sample.sound Sample.dataPath "a@b.com" Sample.world).2 in
  _getContextFactory_send Sample.sound Sample.dataPath "a@b.com" Sample.world
  = (contextOnDisk Sample.sound (fs w1) Sample.pemPath, w1).
Proof.
  intros w1.
  apply (proj1 (proj2 (context_comes_from_disk Sample.sound))).
  by vm_compute.
Defined.

(** ** [connect], end to end *)

(** With the identity on the disk [connect] displays the splash and waits
    for the connection; when the connection is refused, the splash is gone,
    the notification is shown and the deferred fires with [None]. *)
Example connect_with_identity_refused :
  ∃ w1 w2 text,
    connect Sample.sound Sample.provisioned = (Success AwaitingConnection, w1)
    ∧ UI.tools (workbench w1) = [connectingSplash]
    ∧ connectionFired (Failure Sample.refused) w1 = (Success None, w2)
    ∧ UI.tools (workbench w2) = [UI.Notification "Couldn't connect" text 0].
Proof.
  do 3 eexists. split; [by vm_compute|]. split; [by vm_compute|].
  split; by vm_compute.
Qed.

(** On a first run [connect] waits for the e-mail address; once it is
    entered and confirmed the credentials are made and the connection is
    requested with the context factory read back from the disk. *)
Example connect_first_run :
  ∃ w1 w2 w3 w4,
    connect Sample.sound Sample.world = (Success (AwaitingEmail 0 Sample.dataPath), w1)
    ∧ insert_text "a@b.com" w1 = (Success tt, w2)
    ∧ click w2 = (Success (Some (0, Some "a@b.com")), w3)
    ∧ connect_send Sample.sound Sample.dataPath "a@b.com" w3
      = (Success AwaitingConnection, w4)
    ∧ UI.tools (workbench w4) = [connectingSplash]
    ∧ List.last (log w4) Undisplayed
      = ConnectRequested "localhost" 4430 Sample.ctxFactory.
Proof.
  do 4 eexists. split; [by vm_compute|]. split; [by vm_compute|].
  split; [by vm_compute|]. split; [by vm_compute|]. split; by vm_compute.
Qed.

(** * Further properties of [connection.py] *)

(** ** The data directory, further *)

Module DataPathFacts.
Import FS.

(** [mkdir] and [makedirs] leave whatever exists as it is, whether they
    return or raise. *)
Lemma mkdir_preserves (p q : path) (fs : FS.t) :
  exists_ fs q = true → node_at (mkdir p fs).2 q = node_at fs q.
Proof.
  intros Hq. unfold mkdir. destruct (exists_ fs p) eqn:Hp; [done|].
  destruct p as [|c parent]; [done|].
  destruct (node_at fs parent) as [[|]|]; try done.
  cbn [snd]. apply FSFacts.node_at_insert_ne. intros <-. congruence.
Qed.

Lemma exists_node_at (fs fs1 : FS.t) (q : path) :
  node_at fs1 q = node_at fs q → exists_ fs1 q = exists_ fs q.
Proof. unfold exists_. by intros ->. Qed.

Lemma makedirs_preserves (p q : path) : ∀ fs : FS.t,
  exists_ fs q = true → node_at (makedirs p fs).2 q = node_at fs q.
Proof.
  induction p as [|c head IH]; intros fs Hq; [by apply mkdir_preserves|].
  cbn [makedirs]. destruct (negb (exists_ fs head)); [|by apply mkdir_preserves].
  specialize (IH fs Hq).
  destruct (makedirs head fs) as [[[]|e] fs1]; cbn [snd] in IH.
  - rewrite mkdir_preserves; [exact IH|]. by rewrite (exists_node_at fs fs1).
  - destruct (exn_class_of e) as [| | | | | |[]| | | | |]; cbn [snd]; try done.
    rewrite mkdir_preserves; [exact IH|]. by rewrite (exists_node_at fs fs1).
Qed.

(** In a tree nothing exists below a regular file. *)
Lemma wf_below_file (fs : FS.t) (p q : path) :
  wf fs → isfile fs q = true → q `suffix_of` p → q ≠ p → exists_ fs p = false.
Proof.
  intros Hwf Hfile Hsuf Hne. destruct (exists_ fs p) eqn:Hex; [|done].
  pose proof (FSFacts.wf_ancestors fs p q Hwf Hex Hsuf Hne) as Hdir.
  unfold isdir, isfile in *. by destruct (node_at fs q) as [[|]|].
Qed.

(** [makedirs] on something that exists in a tree, other than the root. *)
Lemma makedirs_exists (fs : FS.t) (c : string) (head : path) :
  wf fs → exists_ fs (c :: head) = true →
  makedirs (c :: head) fs = (Failure (oserror EEXIST), fs).
Proof.
  intros Hwf Hex.
  assert (Hhead : exists_ fs head = true).
  { assert (Hdir : isdir fs head = true).
    { apply (Hwf c). unfold exists_, node_at in Hex.
      destruct (fs !! (c :: head)); [eauto | discriminate]. }
    unfold isdir in Hdir. unfold exists_. by destruct (node_at fs head). }
  cbn [makedirs]. rewrite Hhead. cbn [negb]. unfold mkdir. by rewrite Hex.
Qed.

(** [makedirs] below a regular file, in a tree. *)
Lemma makedirs_below_file (p q : path) : ∀ fs : FS.t,
  wf fs → isfile fs q = true → q `suffix_of` p → q ≠ p →
  makedirs p fs = (Failure (oserror ENOTDIR), fs).
Proof.
  induction p as [|c head IH]; intros fs Hwf Hfile Hsuf Hne.
  - apply suffix_nil_inv in Hsuf. congruence.
  - pose proof (wf_below_file fs _ q Hwf Hfile Hsuf Hne) as Hex.
    apply FSFacts.suffix_cons_case in Hsuf as [->|Hsuf]; [congruence|].
    cbn [makedirs]. destruct (decide (q = head)) as [->|Hqh].
    + assert (Hhead : exists_ fs head = true).
      { unfold isfile in Hfile. unfold exists_. by destruct (node_at fs head). }
      rewrite Hhead. cbn [negb]. unfold mkdir. rewrite Hex.
      unfold isfile in Hfile. by destruct (node_at fs head) as [[|]|].
    + rewrite (wf_below_file fs head q Hwf Hfile Hsuf Hqh). cbn [negb].
      by rewrite (IH fs Hwf Hfile Hsuf Hqh).
Qed.

(** With no regular file at the path or above it, in a tree, the directory
    is located. *)
Lemma locateDataPath_makes (home : path) (_system : string) (fs : FS.t) :
  wf fs → (∀ q, q `suffix_of` _getDataPath home _system → isfile fs q = false) →
  ∃ fs1, locateDataPath home _system fs = (Success (_getDataPath home _system), fs1).
Proof.
  intros Hwf Hfiles. unfold locateDataPath.
  destruct (isdir fs (_getDataPath home _system)) eqn:Hdir; cbn [negb]; [by eexists|].
  assert (Hex : exists_ fs (_getDataPath home _system) = false).
  { specialize (Hfiles _ (reflexivity _)). unfold exists_, isdir, isfile in *.
    by destruct (node_at fs (_getDataPath home _system)) as [[|]|]. }
  destruct (FSFacts.makedirs_new _ fs Hwf Hfiles Hex) as (fs1 & Hmk & _).
  exists fs1. by rewrite Hmk.
Qed.

End DataPathFacts.

(** X1: locating the data directory a second time changes nothing: when
    lines 56 to 58 have returned, running them again on the disk they left
    returns the same path and leaves that disk as it is. *)
Theorem locateDataPath_again (home path : FS.path) (_system : string) (fs fs1 : FS.t) :
  locateDataPath home _system fs = (Success path, fs1) →
  locateDataPath home _system fs1 = (Success path, fs1).
Proof.
  intros Hloc. destruct (IdentityFacts.locateDataPath_Success _ _ _ _ _ Hloc) as [-> Hdir].
  by apply IdentityFacts.locateDataPath_there.
Qed.

Lemma locateDataPath_again_witness :
  locateDataPath ["alice"; "home"] "Windows"
                 (locateDataPath ["alice"; "home"] "Windows" ∅).2
  = (Success ["Crypto101"; "alice"; "home"],
     (locateDataPath ["alice"; "home"] "Windows" ∅).2).
Proof.
  apply (locateDataPath_again ["alice"; "home"] _ "Windows" ∅). by vm_compute.
Defined.

(** X2: locating the data directory never changes what exists: every file
    and directory that was on the disk is there unchanged afterwards,
    whether the directory was made or [makedirs] raised. *)
Theorem locateDataPath_keeps_existing
        (home q : FS.path) (_system : string) (fs : FS.t) :
  FS.exists_ fs q = true →
  FS.node_at (locateDataPath home _system fs).2 q = FS.node_at fs q.
Proof.
  intros Hq. unfold locateDataPath.
  destruct (FS.isdir fs (_getDataPath home _system)); cbn [negb]; [done|].
  pose proof (DataPathFacts.makedirs_preserves (_getDataPath home _system) q fs Hq) as Hk.
  by destruct (FS.makedirs (_getDataPath home _system) fs) as [[[]|e] fs1].
Qed.

Lemma locateDataPath_keeps_existing_witness :
  FS.node_at (locateDataPath ["alice"; "home"] "Linux"
                (<[["notes.txt"; "home"] := FS.File "x"]> (<[["home"] := FS.Dir]> ∅))).2
             ["notes.txt"; "home"]
  = FS.node_at (<[["notes.txt"; "home"] := FS.File "x"]> (<[["home"] := FS.Dir]> ∅))
               ["notes.txt"; "home"].
Proof. apply locateDataPath_keeps_existing. by vm_compute. Defined.

(** X3: when the data path is a regular file, in a tree-shaped file system,
    the context-factory step raises the [OSError] of [makedirs] ([EEXIST])
    and leaves the world as it is: nothing is asked, made or written. *)
Theorem _getContextFactory_path_is_file (X : Externals) (w : World) :
  FS.wf (fs w) →
  FS.isfile (fs w) (_getDataPath (home X) (thisSystem X)) = true →
  _getContextFactory X w = (Failure (oserror EEXIST), w).
Proof.
  intros Hwf Hfile. unfold _getContextFactory, bind, onFS, locateDataPath.
  assert (Hdir : FS.isdir (fs w) (_getDataPath (home X) (thisSystem X)) = false).
  { unfold FS.isdir, FS.isfile in *.
    by destruct (FS.node_at (fs w) (_getDataPath (home X) (thisSystem X))) as [[|]|]. }
  rewrite Hdir. cbn [negb]. unfold _getDataPath, FS.child in *.
  destruct (String.eqb (thisSystem X) "Windows");
    (rewrite DataPathFacts.makedirs_exists;
     [by destruct w | exact Hwf
     | unfold FS.isfile in Hfile; unfold FS.exists_;
       by destruct (FS.node_at (fs w) _)]).
Qed.

Lemma _getContextFactory_path_is_file_witness :
  _getContextFactory Sample.sound
    (mkWorld UI.empty []
       (<[Sample.dataPath := FS.File "x"]>
          (<[["alice"; "home"] := FS.Dir]> (<[["home"] := FS.Dir]> ∅))) [])
  = (Failure (oserror EEXIST),
     mkWorld UI.empty []
       (<[Sample.dataPath := FS.File "x"]>
          (<[["alice"; "home"] := FS.Dir]> (<[["home"] := FS.Dir]> ∅))) []).
Proof.
  apply _getContextFactory_path_is_file; [|by vm_compute].
  cbn [fs].
  apply FSFacts.wf_insert; [|by vm_compute|by vm_compute].
  apply FSFacts.wf_insert; [|by vm_compute|by vm_compute].
  apply FSFacts.wf_insert; [|by vm_compute|by vm_compute].
  apply FSFacts.wf_empty.
Defined.

(** X4: when something above the data path (the home directory or one of
    its parents) is a regular file, in a tree-shaped file system, locating
    the data directory raises the [OSError] of [mkdir] ([ENOTDIR]) and
    leaves the disk as it is. *)
Theorem locateDataPath_below_file
        (home q : FS.path) (_system : string) (fs : FS.t) :
  FS.wf fs → q `suffix_of` home → FS.isfile fs q = true →
  locateDataPath home _system fs = (Failure (oserror ENOTDIR), fs).
Proof.
  intros Hwf Hsuf Hfile.
  assert (Hq : q `suffix_of` _getDataPath home _system).
  { unfold _getDataPath, FS.child.
    destruct (String.eqb _system "Windows"); by apply suffix_cons_r. }
  assert (Hne : q ≠ _getDataPath home _system).
  { intros ->. apply suffix_length in Hsuf. unfold _getDataPath, FS.child in Hsuf.
    destruct (String.eqb _system "Windows"); cbn in Hsuf; lia. }
  unfold locateDataPath.
  assert (Hdir : FS.isdir fs (_getDataPath home _system) = false).
  { pose proof (DataPathFacts.wf_below_file fs _ q Hwf Hfile Hq Hne) as Hex.
    unfold FS.exists_, FS.isdir in *.
    by destruct (FS.node_at fs (_getDataPath home _system)) as [[|]|]. }
  rewrite Hdir. cbn [negb].
  by rewrite (DataPathFacts.makedirs_below_file _ q fs Hwf Hfile Hq Hne).
Qed.

Lemma locateDataPath_below_file_witness :
  locateDataPath ["alice"; "home"] "Linux"
                 (<[["alice"; "home"] := FS.File "x"]> (<[["home"] := FS.Dir]> ∅))
  = (Failure (oserror ENOTDIR),
     <[["alice"; "home"] := FS.File "x"]> (<[["home"] := FS.Dir]> ∅)).
Proof.
  apply (locateDataPath_below_file ["alice"; "home"] ["alice"; "home"]).
  - apply FSFacts.wf_insert; [|by vm_compute|by vm_compute].
    apply FSFacts.wf_insert; [|by vm_compute|by vm_compute].
    apply FSFacts.wf_empty.
  - reflexivity.
  - by vm_compute.
Defined.

(** ** The connection attempt, further *)

Module ChainFacts.

(** The chain from the world in which the connection was requested, up to
    the errback. *)
Lemma connectionFired_closes (ctxFactory : CertificateOptions) (o : outcome AMP)
      (w : World) :
  connectionFired o (_connectWithContextFactory ctxFactory w).2
  = addErrback
      (call (outcome_map Some o))
      notifyFailure
      (mkWorld (UI.mkWorkbench (UI.tools (workbench w))
                               (UI.expectedTitle (UI.tools (workbench w)))
                               (UI.layers (UI.tools (workbench w))))
               (deferreds w) (fs w)
               (log w ++ [Displayed connectingSplash;
                          ConnectRequested "localhost" 4430 ctxFactory;
                          Undisplayed])).
Proof.
  destruct w as [[stack t0 b0] ds disk lg].
  rewrite ConnectFacts._connectWithContextFactory_run.
  unfold connectionFired, addErrback, addBoth, call. cbn [snd].
  unfold UI.display at 1, UI.justDisplay at 1. cbn [workbench UI.tools UI.title UI.body].
  rewrite ConnectFacts.closeSplash_run.
  cbn [workbench deferreds fs log UI.tools]. by rewrite <- !app_assoc.
Qed.

End ChainFacts.

(** X5: when the connection is made, the deferred of [connect] fires with
    the protocol; the splash is gone, the stack is the one from before the
    attempt, no notification is displayed and no deferred is made. *)
Theorem connection_made_resolves_with_protocol
        (ctxFactory : CertificateOptions) (protocol : AMP) (w : World) :
  ∃ w1 w2,
    _connectWithContextFactory ctxFactory w = (Success tt, w1)
    ∧ connectionFired (Success protocol) w1 = (Success (Some protocol), w2)
    ∧ UI.tools (workbench w2) = UI.tools (workbench w)
    ∧ count isNotified (log w2) = count isNotified (log w)
    ∧ deferreds w2 = deferreds w
    ∧ fs w2 = fs w.
Proof.
  do 2 eexists. split; [apply ConnectFacts._connectWithContextFactory_run|].
  pose proof (ChainFacts.connectionFired_closes ctxFactory (Success protocol) w) as Hrun.
  rewrite ConnectFacts._connectWithContextFactory_run in Hrun. cbn [snd] in Hrun.
  split; [exact Hrun|]. cbn [workbench UI.tools log deferreds fs].
  split; [reflexivity|]. split; [|done].
  rewrite ConnectFacts.count_app. cbn. lia.
Qed.

(** X6: a failure that is not a [ConnectError] goes through [notifyFailure]
    as it is: the deferred of [connect] fires with that failure, the splash
    is gone, and no notification is displayed. *)
Theorem other_failure_is_passed_on
        (ctxFactory : CertificateOptions) (f : exn) (w : World) :
  isConnectError f = false →
  ∃ w1 w2,
    _connectWithContextFactory ctxFactory w = (Success tt, w1)
    ∧ connectionFired (Failure f) w1 = (Failure f, w2)
    ∧ UI.tools (workbench w2) = UI.tools (workbench w)
    ∧ count isNotified (log w2) = count isNotified (log w)
    ∧ deferreds w2 = deferreds w.
Proof.
  intros Hf.
  do 2 eexists. split; [apply ConnectFacts._connectWithContextFactory_run|].
  pose proof (ChainFacts.connectionFired_closes ctxFactory (Failure f) w) as Hrun.
  rewrite ConnectFacts._connectWithContextFactory_run in Hrun. cbn [snd] in Hrun.
  unfold addErrback, call in Hrun. cbn [outcome_map] in Hrun.
  rewrite (ConnectFacts.notifyFailure_other f _ Hf) in Hrun.
  split; [exact Hrun|]. cbn [workbench UI.tools log deferreds].
  split; [reflexivity|]. split; [|done].
  rewrite ConnectFacts.count_app. cbn. lia.
Qed.

(** A name that does not resolve: [DNSLookupError] is no [ConnectError]. *)
Lemma other_failure_is_passed_on_witness :
  ∃ w1 w2,
    _connectWithContextFactory Sample.ctxFactory Sample.world = (Success tt, w1)
    ∧ connectionFired (Failure (mkExn DNSLookupError "DNSLookupError()")) w1
      = (Failure (mkExn DNSLookupError "DNSLookupError()"), w2)
    ∧ UI.tools (workbench w2) = UI.tools (workbench Sample.world)
    ∧ count isNotified (log w2) = count isNotified (log Sample.world)
    ∧ deferreds w2 = deferreds Sample.world.
Proof. apply other_failure_is_passed_on. reflexivity. Defined.

(** X7: [closeSplash] pops whatever is on top of the stack.  When another
    tool was displayed while the connection was being made, that tool is
    popped when the attempt ends and the splash stays on the stack; the
    result is handed on all the same. *)
Theorem closeSplash_pops_the_top_tool
        (ctxFactory : CertificateOptions) (tool : UI.Tool) (o : outcome (option AMP))
        (w : World) :
  ∃ w1 w2 w3,
    _connectWithContextFactory ctxFactory w = (Success tt, w1)
    ∧ display tool w1 = (Success tt, w2)
    ∧ UI.tools (workbench w2) = tool :: connectingSplash :: UI.tools (workbench w)
    ∧ addBoth (call o) closeSplash w2 = (o, w3)
    ∧ UI.tools (workbench w3) = connectingSplash :: UI.tools (workbench w)
    ∧ UI.title (workbench w3) = "Connecting".
Proof.
  destruct w as [[stack t0 b0] ds disk lg].
  do 3 eexists. split; [apply ConnectFacts._connectWithContextFactory_run|].
  split; [reflexivity|]. split; [reflexivity|].
  split; [unfold addBoth, call; apply ConnectFacts.closeSplash_run|].
  split; reflexivity.
Qed.

(** ** [connect], further *)

Module ConnectFlowFacts.

(** In a tree, a file lies in a directory. *)
Lemma pem_in_directory (disk : FS.t) (path : FS.path) (content : string) :
  FS.wf disk → FS.read disk (FS.child path "client.pem") = Success content →
  FS.isdir disk path = true ∧ FS.isfile disk (FS.child path "client.pem") = true.
Proof.
  intros Hwf Hread. unfold FS.read, FS.isfile, FS.child, FS.node_at in *.
  destruct (disk !! ("client.pem" :: path)) as [[|c]|] eqn:Hpem; try discriminate.
  split; [|reflexivity]. apply (Hwf "client.pem"). by rewrite Hpem.
Qed.

Lemma located_same (w : World) : located w (fs w) = w.
Proof. by destruct w. Qed.

End ConnectFlowFacts.

(** X8: with an identity file that loads, in a tree-shaped file system,
    [connect] asks for nothing: it displays the splash and requests the
    connection to [localhost], port 4430, with the context factory of the
    certificate loaded from the file, and leaves the disk as it is. *)
Theorem connect_with_identity (X : Externals) (w : World) (content : string)
        (cert : PrivateCertificate) :
  FS.wf (fs w) →
  FS.read (fs w) (FS.child (_getDataPath (home X) (thisSystem X)) "client.pem")
  = Success content →
  loadPEM X content = Success cert →
  connect X w
  = (Success AwaitingConnection,
     mkWorld (UI.display connectingSplash (workbench w)) (deferreds w) (fs w)
             (log w ++ [Displayed connectingSplash;
                        ConnectRequested "localhost" 4430 (mkCertificateOptions cert)])).
Proof.
  intros Hwf Hread Hload.
  destruct (ConnectFlowFacts.pem_in_directory _ _ _ Hwf Hread) as [Hdir Hfile].
  unfold connect.
  erewrite CredentialFacts.bind_Success.
  2: { rewrite (IdentityFacts._getContextFactory_existing X w _ (fs w)
                  (IdentityFacts.locateDataPath_there _ _ _ Hdir) Hfile).
       unfold contextOnDisk. rewrite Hread, Hload. reflexivity. }
  rewrite ConnectFlowFacts.located_same.
  unfold addCallback, bind, ret.
  by rewrite ConnectFacts._connectWithContextFactory_run.
Qed.

Lemma connect_with_identity_witness :
  connect Sample.sound Sample.provisioned
  = (Success AwaitingConnection,
     mkWorld (UI.display connectingSplash (workbench Sample.provisioned))
             (deferreds Sample.provisioned) (fs Sample.provisioned)
             (log Sample.provisioned
              ++ [Displayed connectingSplash;
                  ConnectRequested "localhost" 4430
                    (mkCertificateOptions (mkPrivateCertificate "KEY.CERT."))])).
Proof.
  apply (connect_with_identity Sample.sound Sample.provisioned "KEY.CERT.");
    [|by vm_compute|reflexivity].
  cbn [fs Sample.provisioned].
  apply FSFacts.wf_insert; [|by vm_compute|by vm_compute].
  apply FSFacts.wf_insert; [|by vm_compute|by vm_compute].
  apply FSFacts.wf_insert; [|by vm_compute|by vm_compute].
  apply FSFacts.wf_insert; [|by vm_compute|by vm_compute].
  apply FSFacts.wf_empty.
Defined.

(** X9: with an identity file that does not load, the deferred of [connect]
    fails with the error of [loadPEM], and the world is as it was: no
    prompt, no new credentials, no splash and no connection request. *)
Theorem connect_unreadable_identity (X : Externals) (w : World) (content : string)
        (e : exn) :
  FS.wf (fs w) →
  FS.read (fs w) (FS.child (_getDataPath (home X) (thisSystem X)) "client.pem")
  = Success content →
  loadPEM X content = Failure e →
  connect X w = (Failure e, w).
Proof.
  intros Hwf Hread Hload.
  destruct (ConnectFlowFacts.pem_in_directory _ _ _ Hwf Hread) as [Hdir Hfile].
  unfold connect, bind.
  rewrite (IdentityFacts._getContextFactory_existing X w _ (fs w)
             (IdentityFacts.locateDataPath_there _ _ _ Hdir) Hfile).
  unfold contextOnDisk. rewrite Hread, Hload. cbn [outcome_map].
  by rewrite ConnectFlowFacts.located_same.
Qed.

(** X10: without an identity file, in a tree-shaped file system with no
    regular file at the data path or above it, [connect] makes the data
    directory when needed, displays the e-mail prompt and waits on its
    pending deferred: no key is made, [client.pem] is not touched and no
    connection is requested before the prompt is answered. *)
Theorem connect_without_identity_prompts (X : Externals) (w : World) :
  let dataPath := _getDataPath (home X) (thisSystem X) in
  let d := length (deferreds w) in
  FS.wf (fs w) →
  (∀ q, q `suffix_of` dataPath → FS.isfile (fs w) q = false) →
  FS.isfile (fs w) (FS.child dataPath "client.pem") = false →
  ∃ w1,
    connect X w = (Success (AwaitingEmail d dataPath), w1)
    ∧ FS.isdir (fs w1) dataPath = true
    ∧ FS.node_at (fs w1) (FS.child dataPath "client.pem")
      = FS.node_at (fs w) (FS.child dataPath "client.pem")
    ∧ UI.tools (workbench w1)
      = UI.Prompt "E-mail entry" "Enter e-mail:" "" d :: UI.tools (workbench w)
    ∧ deferreds w1 !! d = Some UI.Pending
    ∧ log w1 = (log w ++ [Prompted "E-mail entry" "Enter e-mail:";
                          Displayed (UI.Prompt "E-mail entry" "Enter e-mail:" "" d)])%list.
Proof.
  intros dataPath d Hwf Hfiles Hpem.
  destruct (DataPathFacts.locateDataPath_makes _ _ _ Hwf Hfiles) as [disk Hloc].
  fold dataPath in Hloc.
  destruct (IdentityFacts.locateDataPath_Success _ _ _ _ _ Hloc) as [_ Hdir].
  assert (Hkeep : FS.node_at disk (FS.child dataPath "client.pem")
                  = FS.node_at (fs w) (FS.child dataPath "client.pem")).
  { rewrite <- (IdentityFacts.locateDataPath_keeps (home X) _ (thisSystem X) (fs w))
      by apply IdentityFacts.child_not_above.
    by rewrite Hloc. }
  assert (Hfile : FS.isfile disk (FS.child dataPath "client.pem") = false).
  { unfold FS.isfile in *. by rewrite Hkeep. }
  eexists. split.
  { unfold connect. erewrite CredentialFacts.bind_Success
      by apply (IdentityFacts._getContextFactory_absent X w dataPath disk Hloc Hfile).
    reflexivity. }
  rewrite IdentityFacts.prompt_run.
  cbn [snd located workbench deferreds fs log UI.tools].
  split; [exact Hdir|]. split; [exact Hkeep|]. split; [reflexivity|].
  split; [apply PopUpFacts.lookup_fresh | reflexivity].
Qed.

Lemma connect_without_identity_prompts_witness :
  ∃ w1,
    connect Sample.sound (mkWorld UI.empty [] ∅ [])
    = (Success (AwaitingEmail 0 Sample.dataPath), w1)
    ∧ FS.isdir (fs w1) Sample.dataPath = true
    ∧ FS.node_at (fs w1) Sample.pemPath = FS.node_at (∅ : FS.t) Sample.pemPath
    ∧ UI.tools (workbench w1) = [UI.Prompt "E-mail entry" "Enter e-mail:" "" 0]
    ∧ deferreds w1 !! 0 = Some UI.Pending
    ∧ log w1 = [Prompted "E-mail entry" "Enter e-mail:";
                Displayed (UI.Prompt "E-mail entry" "Enter e-mail:" "" 0)].
Proof.
  apply (connect_without_identity_prompts Sample.sound (mkWorld UI.empty [] ∅ [])).
  - exact FSFacts.wf_empty.
  - intros q _. unfold FS.isfile, FS.node_at. cbn [fs].
    destruct q; [reflexivity | by rewrite lookup_empty].
  - by vm_compute.
Defined.

Lemma connect_unreadable_identity_witness :
  connect Edge.unreadable Sample.provisioned = (Failure Edge.noStartLine, Sample.provisioned).
Proof.
  apply (connect_unreadable_identity Edge.unreadable Sample.provisioned "KEY.CERT.");
    [|by vm_compute|reflexivity].
  cbn [fs Sample.provisioned].
  apply FSFacts.wf_insert; [|by vm_compute|by vm_compute].
  apply FSFacts.wf_insert; [|by vm_compute|by vm_compute].
  apply FSFacts.wf_insert; [|by vm_compute|by vm_compute].
  apply FSFacts.wf_insert; [|by vm_compute|by vm_compute].
  apply FSFacts.wf_empty.
Defined.

(** ** Credential generation, further *)

Module SaveFacts.

Lemma open_wb_directory (disk : FS.t) (c : string) (parent : FS.path) :
  FS.isdir disk (c :: parent) = true →
  FS.open_wb (c :: parent) disk = (Failure (ioerror EISDIR), disk).
Proof.
  unfold FS.isdir, FS.open_wb. intros Hdir.
  by destruct (FS.node_at disk (c :: parent)) as [[|]|].
Qed.

Lemma keeps_loadContextFactory (X : Externals) (q pemPath : FS.path) :
  keepsNode q (loadContextFactory X pemPath).
Proof. intros w. by rewrite IdentityFacts.loadContextFactory_run. Qed.

(** Key generation raises: nothing else is called. *)
Lemma _makeCredentials_no_key (X : Externals) (path : FS.path) (email : string)
      (w : World) (e : exn) :
  generateKey X = Failure e →
  _makeCredentials X path email w
  = (Failure e,
     mkWorld (UI.display credentialSplash (workbench w)) (deferreds w) (fs w)
             (log w ++ [Displayed credentialSplash; KeyRequested])).
Proof.
  intros Hkey. unfold _makeCredentials, bind, display, emit, call.
  cbn [fs workbench deferreds log]. rewrite Hkey. by rewrite <- !app_assoc.
Qed.

(** Making the certificate raises: the file is not opened. *)
Lemma _makeCredentials_no_certificate (X : Externals) (path : FS.path) (email : string)
      (w : World) (key : PKey) (e : exn) :
  generateKey X = Success key → makeCertificate X key email = Failure e →
  _makeCredentials X path email w
  = (Failure e,
     mkWorld (UI.display credentialSplash (workbench w)) (deferreds w) (fs w)
             (log w ++ [Displayed credentialSplash; KeyRequested;
                        CertificateRequested email])).
Proof.
  intros Hkey Hcert. unfold _makeCredentials, bind, display, emit, call.
  cbn [fs workbench deferreds log]. rewrite Hkey, Hcert. by rewrite <- !app_assoc.
Qed.

(** [client.pem] is a directory: the key and the certificate are made, and
    opening the file raises. *)
Lemma _makeCredentials_pem_is_directory (X : Externals) (path : FS.path)
      (email : string) (w : World) (key : PKey) (cert : X509) :
  generateKey X = Success key → makeCertificate X key email = Success cert →
  FS.isdir (fs w) (FS.child path "client.pem") = true →
  _makeCredentials X path email w
  = (Failure (ioerror EISDIR),
     mkWorld (UI.display credentialSplash (workbench w)) (deferreds w) (fs w)
             (log w ++ [Displayed credentialSplash; KeyRequested;
                        CertificateRequested email; DiskChanged (fs w)])).
Proof.
  intros Hkey Hcert Hdir.
  unfold _makeCredentials, with_open_wb, bind, display, emit, call.
  unfold onFile at 1. cbn [fs workbench deferreds log]. rewrite Hkey, Hcert.
  unfold FS.child in *. rewrite (open_wb_directory _ _ _ Hdir).
  by rewrite <- !app_assoc.
Qed.

End SaveFacts.



(** X12: when making the key or making the certificate raises, [connect]
    fails with that error after the e-mail was entered, and nothing else
    happens: the disk is as it was, no file was opened, the certificate is
    not asked for when the key failed, and no connection is requested. *)
Theorem connect_send_generation_raises (X : Externals) (path : FS.path)
        (email : string) (w : World) (e : exn) :
  generateKey X = Failure e
  ∨ (∃ key, generateKey X = Success key ∧ makeCertificate X key email = Failure e) →
  ∃ w1,
    connect_send X path email w = (Failure e, w1)
    ∧ fs w1 = fs w
    ∧ seenAt (FS.child path "client.pem") (log w1)
      = seenAt (FS.child path "client.pem") (log w)
    ∧ count isConnectRequested (log w1) = count isConnectRequested (log w)
    ∧ (generateKey X = Failure e →
       log w1 = (log w ++ [Displayed credentialSplash; KeyRequested])%list).
Proof.
  intros [Hkey | (key & Hkey & Hcert)].
  - eexists. split.
    { unfold connect_send, addCallback, _getContextFactory_send.
      do 3 (erewrite CredentialFacts.bind_Failure; [reflexivity|]).
      by apply SaveFacts._makeCredentials_no_key. }
    cbn [fs log]. split; [reflexivity|].
    rewrite CredentialFacts.seenAt_app, ConnectFacts.count_app. cbn.
    split; [by rewrite app_nil_r|]. split; [lia | done].
  - eexists. split.
    { unfold connect_send, addCallback, _getContextFactory_send.
      do 3 (erewrite CredentialFacts.bind_Failure; [reflexivity|]).
      by apply (SaveFacts._makeCredentials_no_certificate X path email w key). }
    cbn [fs log]. split; [reflexivity|].
    rewrite CredentialFacts.seenAt_app, ConnectFacts.count_app. cbn.
    split; [by rewrite app_nil_r|]. split; [lia | congruence].
Qed.

Lemma connect_send_generation_raises_witness :
  ∃ w1,
    connect_send Sample.noKey Sample.dataPath "a@b.com" Sample.world
    = (Failure Sample.keyFailure, w1)
    ∧ fs w1 = fs Sample.world
    ∧ seenAt (FS.child Sample.dataPath "client.pem") (log w1)
      = seenAt (FS.child Sample.dataPath "client.pem") (log Sample.world)
    ∧ count isConnectRequested (log w1) = count isConnectRequested (log Sample.world)
    ∧ (generateKey Sample.noKey = Failure Sample.keyFailure →
       log w1 = (log Sample.world ++ [Displayed credentialSplash; KeyRequested])%list).
Proof. apply connect_send_generation_raises. left. reflexivity. Defined.

(** X13: from the entered e-mail address on, the context-factory step
    changes nothing on the disk but [client.pem] in the data directory:
    every other file and directory is as it was, whether the step returns
    or raises. *)
Theorem _getContextFactory_send_touches_only_pem
        (X : Externals) (path q : FS.path) (email : string) (w : World) :
  q ≠ FS.child path "client.pem" →
  FS.node_at (fs (_getContextFactory_send X path email w).2) q = FS.node_at (fs w) q.
Proof.
  intros Hne. revert w. change (keepsNode q (_getContextFactory_send X path email)).
  unfold _getContextFactory_send. apply CredentialFacts.keeps_bind.
  - by apply CredentialFacts.keeps__makeCredentials.
  - intros _. apply SaveFacts.keeps_loadContextFactory.
Qed.

Lemma _getContextFactory_send_touches_only_pem_witness :
  FS.node_at (fs (_getContextFactory_send Sample.diskFull Sample.dataPath "a@b.com"
                    Sample.world).2) Sample.dataPath
  = FS.node_at (fs Sample.world) Sample.dataPath.
Proof.
  apply _getContextFactory_send_touches_only_pem.
  intros H. discriminate H.
Defined.

(** X14: when [client.pem] is a directory, the step takes the identity for
    missing: the user is asked for the e-mail address, the key and the
    certificate are made, and only then opening the file raises [IOError]
    ([EISDIR]); the disk is as it was and the credentials splash stays
    displayed. *)
Theorem ensureIdentity_pem_is_directory (X : Externals) (email : string) (w : World)
        (key : PKey) (cert : X509) :
  let dataPath := _getDataPath (home X) (thisSystem X) in
  FS.isdir (fs w) dataPath = true →
  FS.isdir (fs w) (FS.child dataPath "client.pem") = true →
  generateKey X = Success key → makeCertificate X key email = Success cert →
  ∃ w1,
    ensureIdentity X email w = (Failure (ioerror EISDIR), w1)
    ∧ fs w1 = fs w
    ∧ UI.tools (workbench w1) = credentialSplash :: UI.tools (workbench w)
    ∧ count isPrompted (log w1) = count isPrompted (log w) + 1
    ∧ count isKeyRequested (log w1) = count isKeyRequested (log w) + 1.
Proof.
  intros dataPath Hdir Hpem Hkey Hcert.
  assert (Hfile : FS.isfile (fs w) (FS.child dataPath "client.pem") = false).
  { unfold FS.isdir, FS.isfile in *.
    by destruct (FS.node_at (fs w) (FS.child dataPath "client.pem")) as [[|]|]. }
  eexists. split.
  { rewrite (IdentityFacts.ensureIdentity_absent X email w dataPath (fs w)
               (IdentityFacts.locateDataPath_there _ _ _ Hdir) Hfile).
    unfold _getContextFactory_send.
    erewrite CredentialFacts.bind_Failure; [reflexivity|].
    by apply (SaveFacts._makeCredentials_pem_is_directory X dataPath email
                (answered w (fs w) email) key cert). }
  cbn [answered fs log workbench UI.display UI.justDisplay UI.tools].
  split; [reflexivity|]. split; [reflexivity|].
  rewrite !ConnectFacts.count_app. cbn. split; lia.
Qed.

Lemma ensureIdentity_pem_is_directory_witness :
  ∃ w1,
    ensureIdentity Sample.sound "a@b.com" Edge.pemIsDirectory
    = (Failure (ioerror EISDIR), w1)
    ∧ fs w1 = fs Edge.pemIsDirectory
    ∧ UI.tools (workbench w1) = credentialSplash :: UI.tools (workbench Edge.pemIsDirectory)
    ∧ count isPrompted (log w1) = count isPrompted (log Edge.pemIsDirectory) + 1
    ∧ count isKeyRequested (log w1) = count isKeyRequested (log Edge.pemIsDirectory) + 1.
Proof.
  apply (ensureIdentity_pem_is_directory Sample.sound "a@b.com" Edge.pemIsDirectory
           (mkPKey 1) (mkX509 1)); by vm_compute.
Defined.

(** X15: a save that failed when the file was closed is not repaired.  The
    first call raises the error of the close and leaves [client.pem] with
    the leading bytes of the bundle that got through, possibly none; the
    next call finds a file, so it asks for nothing and makes nothing, and
    returns or raises what [loadPEM] makes of those bytes. *)
Theorem ensureIdentity_after_failed_save (X : Externals) (email : string) (w : World)
        (key : PKey) (cert : X509) (k c : string) (e : exn) (n : nat) :
  let dataPath := _getDataPath (home X) (thisSystem X) in
  let pemFile := FS.child dataPath "client.pem" in
  let left := String.substring 0 n (k +:+ c) in
  FS.isdir (fs w) dataPath = true →
  FS.node_at (fs w) pemFile = None →
  generateKey X = Success key → makeCertificate X key email = Success cert →
  dump_privatekey X key = Success k → dump_certificate X cert = Success c →
  close_error X (k +:+ c) = Some (e, n) →
  ∃ w1,
    ensureIdentity X email w = (Failure e, w1)
    ∧ FS.read (fs w1) pemFile = Success left
    ∧ ∀ email2,
        ensureIdentity X email2 w1
        = (outcome_map mkCertificateOptions (loadPEM X left), w1).
Proof.
  intros dataPath pemFile left Hdir Hnone Hkey Hcert Hk Hc Hclose.
  assert (Hfile : FS.isfile (fs w) pemFile = false)
    by (unfold FS.isfile; by rewrite Hnone).
  assert (Hpem : FS.isdir (fs w) pemFile = false)
    by (unfold FS.isdir; by rewrite Hnone).
  assert (Hread : FS.read (<[pemFile := FS.File left]> (fs w)) pemFile = Success left).
  { unfold FS.read, pemFile, FS.child. by rewrite FSFacts.node_at_insert_eq. }
  eexists. split.
  { rewrite (IdentityFacts.ensureIdentity_absent X email w dataPath (fs w)
               (IdentityFacts.locateDataPath_there _ _ _ Hdir) Hfile).
    unfold _getContextFactory_send.
    erewrite CredentialFacts.bind_Failure; [reflexivity|].
    by apply (CredentialFacts._makeCredentials_close_raises X dataPath email
                (answered w (fs w) email) key cert k c e n). }
  cbn [answered fs]. fold pemFile left. split; [exact Hread|].
  intros email2.
  assert (Hdir1 : FS.isdir (<[pemFile := FS.File left]> (fs w)) dataPath = true).
  { unfold FS.isdir. rewrite FSFacts.node_at_insert_ne; [exact Hdir|].
    intros Heq. apply (f_equal length) in Heq. cbn in Heq. lia. }
  assert (Hfile1 : FS.isfile (<[pemFile := FS.File left]> (fs w)) pemFile = true).
  { unfold FS.isfile, pemFile, FS.child. by rewrite FSFacts.node_at_insert_eq. }
  erewrite (IdentityFacts.ensureIdentity_existing X email2 _ dataPath
              (<[pemFile := FS.File left]> (fs w)));
    [|by apply IdentityFacts.locateDataPath_there|exact Hfile1].
  unfold contextOnDisk. fold pemFile. by rewrite Hread.
Qed.

Lemma ensureIdentity_after_failed_save_witness :
  ∃ w1,
    ensureIdentity Sample.diskFull "a@b.com" Sample.world
    = (Failure Sample.noSpaceLeft, w1)
    ∧ FS.read (fs w1) Sample.pemPath = Success "KEY.CE"
    ∧ ∀ email2,
        ensureIdentity Sample.diskFull email2 w1
        = (outcome_map mkCertificateOptions (loadPEM Sample.diskFull "KEY.CE"), w1).
Proof.
  apply (ensureIdentity_after_failed_save Sample.diskFull "a@b.com" Sample.world
           (mkPKey 1) (mkX509 1) "KEY." "CERT." Sample.noSpaceLeft 6); by vm_compute.
Defined.

(** ** The first run, end to end *)

Module FirstRunFacts.

(** [connect_send] when every call succeeds, with the world it ends in. *)
Lemma connect_send_run (X : Externals) (path : FS.path) (email : string)
      (w : World) (key : PKey) (cert : X509) (k c : string)
      (loaded : PrivateCertificate) :
  generateKey X = Success key → makeCertificate X key email = Success cert →
  dump_privatekey X key = Success k → dump_certificate X cert = Success c →
  close_error X (k +:+ c) = None →
  FS.isdir (fs w) path = true → FS.isdir (fs w) (FS.child path "client.pem") = false →
  loadPEM X (k +:+ c) = Success loaded →
  let pemFile := FS.child path "client.pem" in
  connect_send X path email w
  = (Success AwaitingConnection,
     mkWorld (UI.display connectingSplash
                (UI.mkWorkbench (UI.tools (workbench w))
                                (UI.expectedTitle (UI.tools (workbench w)))
                                (UI.layers (UI.tools (workbench w)))))
             (deferreds w)
             (<[pemFile := FS.File (k +:+ c)]> (fs w))
             (log w ++ [Displayed credentialSplash; KeyRequested;
                        CertificateRequested email;
                        DiskChanged (<[pemFile := FS.File ""]> (fs w));
                        DiskChanged (<[pemFile := FS.File (k +:+ c)]> (fs w));
                        Undisplayed;
                        Displayed connectingSplash;
                        ConnectRequested "localhost" 4430 (mkCertificateOptions loaded)])).
Proof.
  intros Hkey Hcert Hk Hc Hclose Hdir Hpem Hload pemFile.
  assert (Hread : FS.read (<[pemFile := FS.File (k +:+ c)]> (fs w)) pemFile
                  = Success (k +:+ c)).
  { unfold FS.read, pemFile, FS.child. by rewrite FSFacts.node_at_insert_eq. }
  unfold connect_send, addCallback.
  erewrite CredentialFacts.bind_Success.
  2: { erewrite CredentialFacts.bind_Success;
         [apply ConnectFacts._connectWithContextFactory_run|].
       unfold _getContextFactory_send.
       erewrite CredentialFacts.bind_Success
         by (by apply (CredentialFacts._makeCredentials_returns X path email w key cert k c)).
       rewrite IdentityFacts.loadContextFactory_run. unfold contextOnDisk. cbn [fs].
       fold pemFile. rewrite Hread, Hload. reflexivity. }
  unfold ret. cbn [workbench deferreds fs log]. by rewrite <- !app_assoc.
Qed.

(** The prompt of [connect], filled in and confirmed. *)
Lemma connect_answered (X : Externals) (w : World) (path : FS.path) (disk : FS.t)
      (email : string) :
  locateDataPath (home X) (thisSystem X) (fs w) = (Success path, disk) →
  FS.isfile disk (FS.child path "client.pem") = false →
  ∃ w1 w2,
    connect X w = (Success (AwaitingEmail (length (deferreds w)) path), w1)
    ∧ insert_text email w1 = (Success tt, w2)
    ∧ click w2 = (Success (Some (length (deferreds w), Some email)),
                  answered w disk email).
Proof.
  intros Hloc Hfile. do 2 eexists. split.
  { unfold connect. erewrite CredentialFacts.bind_Success
      by apply (IdentityFacts._getContextFactory_absent X w path disk Hloc Hfile).
    reflexivity. }
  rewrite IdentityFacts.prompt_run. cbn [snd located workbench deferreds fs log].
  split; [reflexivity|].
  rewrite IdentityFacts.click_prompt. unfold answered. cbn [fs log].
  by rewrite <- app_assoc.
Qed.

End FirstRunFacts.

(** X16: the first run, in a tree-shaped file system with no regular file
    at the data path or above it and no [client.pem], when every call
    succeeds: [connect] asks for the e-mail address; once it is typed and
    confirmed the credentials for that address are written to [client.pem]
    and the connection is requested once, with the connecting splash on top
    of the stack from before; in all one prompt and one key. *)
Theorem first_run_connects (X : Externals) (w : World) (email : string)
        (key : PKey) (cert : X509) (k c : string) (loaded : PrivateCertificate) :
  let dataPath := _getDataPath (home X) (thisSystem X) in
  let pemFile := FS.child dataPath "client.pem" in
  let d := length (deferreds w) in
  FS.wf (fs w) →
  (∀ q, q `suffix_of` dataPath → FS.isfile (fs w) q = false) →
  FS.node_at (fs w) pemFile = None →
  generateKey X = Success key → makeCertificate X key email = Success cert →
  dump_privatekey X key = Success k → dump_certificate X cert = Success c →
  close_error X (k +:+ c) = None →
  loadPEM X (k +:+ c) = Success loaded →
  ∃ w1 w2 w3 w4,
    connect X w = (Success (AwaitingEmail d dataPath), w1)
    ∧ insert_text email w1 = (Success tt, w2)
    ∧ click w2 = (Success (Some (d, Some email)), w3)
    ∧ connect_send X dataPath email w3 = (Success AwaitingConnection, w4)
    ∧ UI.tools (workbench w4) = connectingSplash :: UI.tools (workbench w)
    ∧ deferreds w4 !! d = Some (UI.Fired (Some email))
    ∧ FS.read (fs w4) pemFile = Success (k +:+ c)
    ∧ count isPrompted (log w4) = count isPrompted (log w) + 1
    ∧ count isKeyRequested (log w4) = count isKeyRequested (log w) + 1
    ∧ count isConnectRequested (log w4) = count isConnectRequested (log w) + 1.
Proof.
  intros dataPath pemFile d Hwf Hfiles Hnone Hkey Hcert Hk Hc Hclose Hload.
  destruct (DataPathFacts.locateDataPath_makes _ _ _ Hwf Hfiles) as [disk Hloc].
  fold dataPath in Hloc.
  destruct (IdentityFacts.locateDataPath_Success _ _ _ _ _ Hloc) as [_ Hdir].
  assert (Hkeep : FS.node_at disk pemFile = None).
  { rewrite <- Hnone.
    rewrite <- (IdentityFacts.locateDataPath_keeps (home X) pemFile (thisSystem X) (fs w))
      by apply IdentityFacts.child_not_above.
    by rewrite Hloc. }
  assert (Hfile : FS.isfile disk pemFile = false)
    by (unfold FS.isfile; by rewrite Hkeep).
  assert (Hpem : FS.isdir disk pemFile = false)
    by (unfold FS.isdir; by rewrite Hkeep).
  destruct (FirstRunFacts.connect_answered X w dataPath disk email Hloc Hfile)
    as (w1 & w2 & Hconnect & Htype & Hclick).
  exists w1, w2, (answered w disk email). eexists.
  split; [exact Hconnect|]. split; [exact Htype|]. split; [exact Hclick|].
  split.
  { by apply (FirstRunFacts.connect_send_run X dataPath email (answered w disk email)
                key cert k c loaded). }
  cbn [answered workbench deferreds fs log UI.display UI.justDisplay UI.tools].
  split; [reflexivity|]. split; [apply PopUpFacts.lookup_fresh|].
  split.
  { unfold FS.read, pemFile, FS.child. by rewrite FSFacts.node_at_insert_eq. }
  rewrite !ConnectFacts.count_app. cbn. repeat split; lia.
Qed.

Lemma first_run_connects_witness :
  ∃ w1 w2 w3 w4,
    connect Sample.sound (mkWorld UI.empty [] ∅ [])
    = (Success (AwaitingEmail 0 Sample.dataPath), w1)
    ∧ insert_text "a@b.com" w1 = (Success tt, w2)
    ∧ click w2 = (Success (Some (0, Some "a@b.com")), w3)
    ∧ connect_send Sample.sound Sample.dataPath "a@b.com" w3
      = (Success AwaitingConnection, w4)
    ∧ UI.tools (workbench w4) = [connectingSplash]
    ∧ deferreds w4 !! 0 = Some (UI.Fired (Some "a@b.com"))
    ∧ FS.read (fs w4) Sample.pemPath = Success ("KEY." +:+ "CERT.")
    ∧ count isPrompted (log w4) = 0 + 1
    ∧ count isKeyRequested (log w4) = 0 + 1
    ∧ count isConnectRequested (log w4) = 0 + 1.
Proof.
  apply (first_run_connects Sample.sound (mkWorld UI.empty [] ∅ []) "a@b.com"
           (mkPKey 1) (mkX509 1) "KEY." "CERT." (mkPrivateCertificate "KEY.CERT."));
    try (by vm_compute).
  - exact FSFacts.wf_empty.
  - intros q _. unfold FS.isfile, FS.node_at. cbn [fs].
    destruct q; [reflexivity | by rewrite lookup_empty].
Defined.

(** ** The pop-ups and the workbench in the tests *)

Module TestFacts.
Import UI.

Lemma run_app (ops1 ops2 : list op) : ∀ wb,
  run (ops1 ++ ops2) wb
  = match run ops1 wb with
    | Some wb1 => run ops2 wb1
    | None => None
    end.
Proof.
  induction ops1 as [|o ops1 IH]; intros wb; [reflexivity|].
  cbn [app run]. destruct (step o wb); [apply IH | reflexivity].
Qed.

End TestFacts.

(** X17: as [test_notify] has it, for every name and text and on every
    workbench: [notify] displays a notification on top of the stack; when
    it is dismissed its deferred fires with no value and the stack is what
    it was before. *)
Theorem notify_dismissed (w : World) (name text : string) :
  ∃ d w1 w2,
    notify name text w = (Success d, w1)
    ∧ UI.tools (workbench w1) = UI.Notification name text d :: UI.tools (workbench w)
    ∧ UI.name (UI.Notification name text d) = name
    ∧ deferreds w1 !! d = Some UI.Pending
    ∧ click w1 = (Success (Some (d, None)), w2)
    ∧ deferreds w2 !! d = Some (UI.Fired None)
    ∧ UI.tools (workbench w2) = UI.tools (workbench w).
Proof.
  destruct w as [[stack t0 b0] ds disk lg].
  exists (length ds). do 2 eexists.
  split; [reflexivity|]. split; [reflexivity|]. split; [reflexivity|].
  split; [apply PopUpFacts.lookup_fresh|].
  split; [apply ConnectFacts.click_notification|].
  split; [apply PopUpFacts.lookup_fresh | reflexivity].
Qed.

(** X18: as [test_clear] has it, after any operations: once the workbench
    is cleared and a tool displayed, that tool is the only one displayed,
    the title is its name and it lies directly over the background. *)
Theorem clear_then_display (ops : list UI.op) (tool : UI.Tool) :
  UI.within ops 0 = true →
  UI.run (ops ++ [UI.Clear; UI.Display tool]) UI.empty
  = Some (UI.mkWorkbench [tool] (UI.name tool) (UI.Foreground tool UI.BACKGROUND)).
Proof.
  intros Hw.
  destruct (UIFacts.run_consistent ops UI.empty) as (wb & Hrun & _);
    [by split | exact Hw |].
  rewrite TestFacts.run_app, Hrun. reflexivity.
Qed.

Lemma clear_then_display_witness :
  UI.run ([UI.Display (UI.AppTool "First" 1); UI.Display (UI.AppTool "Second" 2)]
          ++ [UI.Clear; UI.Display (UI.AppTool "Third" 3)]) UI.empty
  = Some (UI.mkWorkbench [UI.AppTool "Third" 3] (UI.name (UI.AppTool "Third" 3))
            (UI.Foreground (UI.AppTool "Third" 3) UI.BACKGROUND)).
Proof. apply clear_then_display. reflexivity. Defined.
